(** * vcf_concordance: a shallow embedding of [vcf_con.py]

    The script reads two or more VCF files, reduces every record to the
    identity [(CHROM, POS, REF, ALT[0])], collects one set of identities
    per file under a label derived from the file name, and hands the sets
    to a Venn renderer (2 or 3 files) or to an UpSet renderer (4 or more).

    The embedding keeps the shape of the script: Python's [str] methods and
    [os.path] helpers are functions on [string]; a [set] of identities is a
    [gset]; the label-keyed [dict] is an insertion-ordered association list
    with Python's assignment semantics; printing, plotting and exceptions
    are threaded through a small writer/exception monad. *)

From stdpp Require Import gmap strings list.
From Stdlib Require Import ZArith Lia Ascii.
From Equations Require Import Equations.

Local Open Scope string_scope.
Local Open Scope Z_scope.
Local Open Scope list_scope.

(** ** Python string primitives used by the script *)

Module Py.

(** [s.endswith(suffix)] *)
Definition endswith (s suffix : string) : bool :=
  let n := String.length s in
  let m := String.length suffix in
  (m <=? n)%nat && String.eqb (String.substring (n - m) m s) suffix.

(** Scan of [s.replace(old, new)] for a non-empty [old]: occurrences are
    replaced left to right and do not overlap; [skip] counts the characters
    of the occurrence just replaced that are still to be dropped. *)
Fixpoint replace_go (old new : string) (skip : nat) (s : string) : string :=
  match s with
  | EmptyString => EmptyString
  | String c rest =>
      match skip with
      | S k => replace_go old new k rest
      | O =>
          if String.prefix old s
          then new +:+ replace_go old new (String.length old - 1) rest
          else String c (replace_go old new 0 rest)
      end
  end.

(** For the empty pattern Python inserts [new] before every character and
    at the end. *)
Fixpoint intersperse_all (new s : string) : string :=
  match s with
  | EmptyString => new
  | String c rest => new +:+ String c (intersperse_all new rest)
  end.

(** [s.replace(old, new)] *)
Definition replace (s old new : string) : string :=
  match old with
  | EmptyString => intersperse_all new s
  | _ => replace_go old new 0 s
  end.

(** [s.rfind(c)] for a one-character needle: the highest index holding [c],
    or [-1]. [k] is the index of the head of [s]. *)
Fixpoint rfind_go (c : ascii) (k : Z) (last : Z) (s : string) : Z :=
  match s with
  | EmptyString => last
  | String a rest => rfind_go c (k + 1) (if Ascii.eqb a c then k else last) rest
  end.

Definition rfind (s : string) (c : ascii) : Z := rfind_go c 0 (-1) s.

(** [s[i:]] for [0 <= i] *)
Fixpoint slice_from (i : nat) (s : string) : string :=
  match i, s with
  | O, _ => s
  | S _, EmptyString => EmptyString
  | S j, String _ rest => slice_from j rest
  end.

(** [posixpath.basename]: [i = p.rfind('/') + 1; return p[i:]] *)
Definition basename (p : string) : string :=
  let i := rfind p "/"%char + 1 in
  slice_from (Z.to_nat i) p.

(** [posixpath.join(a, b)] for two components. *)
Definition path_join (a b : string) : string :=
  if String.prefix "/" b then b
  else if (String.eqb a "" || endswith a "/")%bool then a +:+ b
  else a +:+ "/" +:+ b.

(** Truthiness of an optional string ([None] and [''] are falsy). *)
Definition truthy (o : option string) : bool :=
  match o with
  | None => false
  | Some s => negb (String.eqb s "")
  end.

End Py.

(** ** Variant records and identities *)

(** The fields of a [cyvcf2] record. The script reads [CHROM], [POS], [REF]
    and [ALT]; the remaining columns are carried along untouched. *)
Record Variant := mkVariant {
  CHROM : string;
  POS : Z;
  REF : string;
  ALT : list string;
  ID : string;
  QUAL : string;
  FILTER : string;
  INFO : string;
  genotypes : list string
}.

Abbreviation variant_key := (string * Z * string * string)%type.

(** Body of the reader loop:
    [alt = variant.ALT[0] if variant.ALT else ""]
    [variant_id = (variant.CHROM, variant.POS, variant.REF, alt)] *)
Definition variant_id (variant : Variant) : variant_key :=
  let alt := match ALT variant with
             | [] => ""
             | a :: _ => a
             end in
  (CHROM variant, POS variant, REF variant, alt).

(** ** Effects: output, plotting calls and exceptions *)

(** Exceptions the script can raise outside a [try]. [sys.exit(n)] raises
    [SystemExit n]. *)
Inductive exn :=
  | IndexError
  | KeyError (key : string)
  | SystemExit (code : Z).

(** Observable actions, in program order. [OpenVCF] is the call [VCF(path)];
    the plotting events are the calls into [matplotlib], [matplotlib_venn]
    and [upsetplot], with the arguments the script passes. *)
Inductive event :=
  | Stdout (line : string)
  | Stderr (line : string)
  | OpenVCF (path : string)
  | Figure (width height : nat)
  | Venn2 (subsets : list (gset variant_key)) (set_labels : list string)
  | Venn3 (subsets : list (gset variant_key)) (set_labels : list string)
  | UpsetPlot (contents : list (string * gset variant_key))
  | Title (text : string)
  | Suptitle (text : string)
  | Savefig (path : string)
  | Show.

(** A computation yields the events it performed and either an uncaught
    exception or a value. *)
Definition M (A : Type) : Type := list event * (exn + A).

#[global] Instance M_ret : MRet M := λ A a, ([], inr a).

#[global] Instance M_bind : MBind M := λ A B k m,
  match m with
  | (t, inl e) => (t, inl e)
  | (t, inr a) => let '(t', r) := k a in (t ++ t', r)
  end.

Definition emit (e : event) : M unit := ([e], inr tt).
Definition raise {A : Type} (e : exn) : M A := ([], inl e).

Definition trace {A : Type} (m : M A) : list event := m.1.
Definition outcome {A : Type} (m : M A) : exn + A := m.2.

(** Process exit status: 0 on normal completion, the argument of
    [sys.exit], and 1 for any other uncaught exception. *)
Definition exit_status (m : M unit) : Z :=
  match outcome m with
  | inr _ => 0
  | inl (SystemExit code) => code
  | inl _ => 1
  end.

(** ** The environment: VCF files and directories *)

(** What iterating a [cyvcf2] reader produces: records, then either the end
    of the file or an exception raised by the parser. *)
Inductive vcf_stream :=
  | EndOfFile
  | Rec (variant : Variant) (rest : vcf_stream)
  | ParseError (msg : string).

(** [VCF(path)] either raises or returns a reader. *)
Inductive vcf_open :=
  | OpenError (msg : string)
  | Reader (records : vcf_stream).

Record World := mkWorld {
  VCF : string → vcf_open;
  isdir : string → bool
}.

(** ** [read_vcf_variants] *)

(** The [for variant in reader] loop inside the [try]: returns the set as it
    stands when the loop stops and the exception message, if any. *)
Fixpoint read_loop (reader : vcf_stream) (variants : gset variant_key)
  : gset variant_key * option string :=
  match reader with
  | EndOfFile => (variants, None)
  | Rec variant rest => read_loop rest (variants ∪ {[variant_id variant]})
  | ParseError msg => (variants, Some msg)
  end.

Definition read_error (vcf_file msg : string) : string :=
  "Error reading " +:+ vcf_file +:+ ": " +:+ msg.

Definition read_vcf_variants (w : World) (vcf_file : string) : M (gset variant_key) :=
  let variants : gset variant_key := ∅ in
  emit (OpenVCF vcf_file);;
  match VCF w vcf_file with
  | OpenError msg => emit (Stderr (read_error vcf_file msg));; mret variants
  | Reader reader =>
      let '(variants, err) := read_loop reader variants in
      match err with
      | Some msg => emit (Stderr (read_error vcf_file msg));; mret variants
      | None => mret variants
      end
  end.

(** ** The label-keyed dictionary *)

Section Dict.
Context {V : Type}.

(** [d[k] = v]: overwrite in place when the key exists, else append. *)
Fixpoint dict_set (d : list (string * V)) (k : string) (v : V) : list (string * V) :=
  match d with
  | [] => [(k, v)]
  | (k', v') :: d' =>
      if decide (k' = k) then (k', v) :: d' else (k', v') :: dict_set d' k v
  end.

Fixpoint dict_get (d : list (string * V)) (k : string) : option V :=
  match d with
  | [] => None
  | (k', v') :: d' => if decide (k' = k) then Some v' else dict_get d' k
  end.

(** [d[k]] as an expression. *)
Definition dict_getitem (d : list (string * V)) (k : string) : M V :=
  match dict_get d k with
  | Some v => mret v
  | None => raise (KeyError k)
  end.
End Dict.

(** [l[i]] for [0 <= i]. *)
Definition list_getitem {A : Type} (l : list A) (i : nat) : M A :=
  match l !! i with
  | Some a => mret a
  | None => raise IndexError
  end.

(** ** Labels and the set-building loop *)

(** [os.path.basename(f).replace('.vcf', '')] *)
Definition label_of (f : string) : string :=
  Py.replace (Py.basename f) ".vcf" "".

(** [for vcf_file, label in zip(vcf_files, labels):]
    [    variant_sets[label] = read_vcf_variants(vcf_file)] *)
Fixpoint build_sets (w : World) (pairs : list (string * string))
    (variant_sets : list (string * gset variant_key))
  : M (list (string * gset variant_key)) :=
  match pairs with
  | [] => mret variant_sets
  | (vcf_file, label) :: rest =>
      s ← read_vcf_variants w vcf_file;
      build_sets w rest (dict_set variant_sets label s)
  end.

(** The tail shared by both renderers:
    [if output_file: plt.savefig(output_file, ...); print(...)]
    [else: plt.show()] *)
Definition save_or_show (kind : string) (output_file : option string) : M unit :=
  match output_file with
  | Some path =>
      if Py.truthy output_file
      then emit (Savefig path);; emit (Stdout (kind +:+ " saved to " +:+ path))
      else emit Show
  | None => emit Show
  end.

(** ** [create_upset_plot] *)
Definition create_upset_plot (w : World) (vcf_files : list string)
    (output_file : option string) : M unit :=
  let labels := label_of <$> vcf_files in
  variant_sets ← build_sets w (zip vcf_files labels) [];
  emit (Figure 12 8);;
  emit (UpsetPlot variant_sets);;
  emit (Suptitle "Variant Concordance Between VCF Files");;
  save_or_show "UpSet plot" output_file.

(** ** [create_venn_diagram] *)
Definition venn_note : string :=
  "Venn diagrams are not recommended for more than 3 sets. Using UpSet plot instead.".

Definition create_venn_diagram (w : World) (vcf_files : list string)
    (output_file : option string) : M unit :=
  let labels := label_of <$> vcf_files in
  variant_sets ← build_sets w (zip vcf_files labels) [];
  emit (Figure 10 8);;
  if decide (length vcf_files = 2%nat) then
    l0 ← list_getitem labels 0; s0 ← dict_getitem variant_sets l0;
    l1 ← list_getitem labels 1; s1 ← dict_getitem variant_sets l1;
    emit (Venn2 [s0; s1] labels);;
    emit (Title "Variant Concordance Between VCF Files");;
    save_or_show "Venn diagram" output_file
  else if decide (length vcf_files = 3%nat) then
    l0 ← list_getitem labels 0; s0 ← dict_getitem variant_sets l0;
    l1 ← list_getitem labels 1; s1 ← dict_getitem variant_sets l1;
    l2 ← list_getitem labels 2; s2 ← dict_getitem variant_sets l2;
    emit (Venn3 [s0; s1; s2] labels);;
    emit (Title "Variant Concordance Between VCF Files");;
    save_or_show "Venn diagram" output_file
  else
    emit (Stdout venn_note);;
    create_upset_plot w vcf_files output_file.

(** ** [analyze_vcf_concordance] *)
Definition too_few : string :=
  "Please provide at least 2 VCF files for comparison.".

Definition analyze_vcf_concordance (w : World) (vcf_files : list string)
    (output_file : option string) : M unit :=
  if decide (length vcf_files < 2)%nat then
    emit (Stdout too_few)
  else if decide (length vcf_files ≤ 3)%nat then
    create_venn_diagram w vcf_files output_file
  else
    create_upset_plot w vcf_files output_file.

(** ** The command-line scanner and the script body *)

(** The [while i < len(sys.argv)] loop. [sys.argv[i+1]] after [--output] is
    read without a bounds check and raises [IndexError] past the end. *)
Equations? scan_loop (argv : list string) (i : nat) (vcf_files : list string)
    (output_file : option string) : exn + (list string * option string)
  by wf (length argv - i)%nat lt :=
scan_loop argv i vcf_files output_file with decide (i < length argv)%nat := {
  | right _ => inr (vcf_files, output_file)
  | left Hlt with argv !! i := {
    | None => inl IndexError
    | Some arg with (Py.endswith arg ".vcf" || Py.endswith arg ".vcf.gz") := {
      | true => scan_loop argv (i + 1) (vcf_files ++ [arg]) output_file
      | false with String.eqb arg "--output" := {
        | true with argv !! (i + 1)%nat := {
          | None => inl IndexError
          | Some path => scan_loop argv (i + 2) vcf_files (Some path) }
        | false => scan_loop argv (i + 1) vcf_files output_file } } } }.
Proof. all: lia. Qed.

Definition usage : string :=
  "Usage: python vcf_concordance.py file1.vcf file2.vcf [file3.vcf ...] [--output output.png]".

Definition default_name : string := "vcf_concordance.png".

(** [if output_file and os.path.isdir(output_file):]
    [    output_file = os.path.join(output_file, "vcf_concordance.png")] *)
Definition resolve_output (w : World) (output_file : option string) : option string :=
  match output_file with
  | Some path =>
      if Py.truthy output_file && isdir w path
      then Some (Py.path_join path default_name)
      else output_file
  | None => None
  end.

(** The [if __name__ == "__main__":] block. *)
Definition main (w : World) (argv : list string) : M unit :=
  if decide (length argv < 3)%nat then
    emit (Stdout usage);; raise (SystemExit 1)
  else
    match scan_loop argv 1 [] None with
    | inl e => raise e
    | inr (vcf_files, output_file) =>
        if decide (length vcf_files < 2)%nat then
          emit (Stdout too_few);; raise (SystemExit 1)
        else
          analyze_vcf_concordance w vcf_files (resolve_output w output_file)
    end.

(** The scanner as a recursion on the unread tokens [argv[i:]]; shown below
    to agree with [scan_loop]. *)
Fixpoint scan_tokens (tokens : list string) (vcf_files : list string)
    (output_file : option string) : exn + (list string * option string) :=
  match tokens with
  | [] => inr (vcf_files, output_file)
  | arg :: rest =>
      if Py.endswith arg ".vcf" || Py.endswith arg ".vcf.gz"
      then scan_tokens rest (vcf_files ++ [arg]) output_file
      else if String.eqb arg "--output"
      then match rest with
           | [] => inl IndexError
           | path :: rest' => scan_tokens rest' vcf_files (Some path)
           end
      else scan_tokens rest vcf_files output_file
  end.

(** ** What the UpSet renderer computes *)

(** The script delegates the combination counts to
    [upsetplot.from_contents] and [upsetplot.plot], which are not part of
    the repository. The definitions of this part follow the wording of the
    specification instead: a membership combination is one flag per
    labelled set, in dictionary order. *)

(** Modelled from the spec: the union of all the labelled sets (the code of
    [upsetplot] is missing). *)
Definition union_all (contents : list (string * gset variant_key)) : gset variant_key :=
  ⋃ (snd <$> contents).

(** Modelled from the spec: the presence/absence pattern of an identity
    across the labelled sets (the code of [upsetplot] is missing). *)
Definition membership (contents : list (string * gset variant_key))
    (x : variant_key) : list bool :=
  (λ entry, bool_decide (x ∈ entry.2)) <$> contents.

(** Modelled from the spec: all membership combinations of [n] sets (the
    code of [upsetplot] is missing). *)
Fixpoint combinations (n : nat) : list (list bool) :=
  match n with
  | O => [[]]
  | S k => (cons true <$> combinations k) ++ (cons false <$> combinations k)
  end.

(** Modelled from the spec: the non-empty combinations, those with at
    least one set present (the code of [upsetplot] is missing). *)
Definition nonempty_combinations (n : nat) : list (list bool) :=
  filter (λ c, true ∈ c) (combinations n).

(** Modelled from the spec: the count of identities whose pattern matches
    the combination exactly (the code of [upsetplot] is missing). *)
Definition combination_count (contents : list (string * gset variant_key))
    (c : list bool) : nat :=
  size (filter (λ x, membership contents x = c) (union_all contents)).

(** Modelled from the spec: what the multi-set renderer computes, one
    count per non-empty combination (the code of [upsetplot] is missing). *)
Definition upset_counts (contents : list (string * gset variant_key))
  : list (list bool * nat) :=
  (λ c, (c, combination_count contents c)) <$> nonempty_combinations (length contents).

(** ** Notions used to state the properties *)

(** The records a reader yields before it stops, and the exception that
    stopped it, if any. *)
Fixpoint records_read (reader : vcf_stream) : list Variant :=
  match reader with
  | EndOfFile => []
  | Rec variant rest => variant :: records_read rest
  | ParseError _ => []
  end.

Fixpoint stream_error (reader : vcf_stream) : option string :=
  match reader with
  | EndOfFile => None
  | Rec _ rest => stream_error rest
  | ParseError msg => Some msg
  end.

(** Opening or parsing [vcf_file] fails with message [msg]. *)
Definition read_failure (w : World) (vcf_file : string) : option string :=
  match VCF w vcf_file with
  | OpenError msg => Some msg
  | Reader reader => stream_error reader
  end.

(** The records of [vcf_file] delivered before the end or the failure. *)
Definition records_of (w : World) (vcf_file : string) : list Variant :=
  match VCF w vcf_file with
  | OpenError _ => []
  | Reader reader => records_read reader
  end.

(** The dictionary the set-building loop returns. *)
Definition built (w : World) (pairs : list (string * string))
    (variant_sets : list (string * gset variant_key))
  : list (string * gset variant_key) :=
  foldl (λ d p, dict_set d p.2 (list_to_set (variant_id <$> records_of w p.1)))
        variant_sets pairs.

(** Events of the set-building loop: opens and error-stream lines. *)
Definition is_read_event (e : event) : bool :=
  match e with OpenVCF _ | Stderr _ => true | _ => false end.

Definition is_open (e : event) : bool :=
  match e with OpenVCF _ => true | _ => false end.

Definition is_pairwise (e : event) : bool :=
  match e with Venn2 _ _ | Venn3 _ _ => true | _ => false end.

Definition is_multiset (e : event) : bool :=
  match e with UpsetPlot _ => true | _ => false end.

Definition is_render (e : event) : bool :=
  match e with
  | Figure _ _ | Venn2 _ _ | Venn3 _ _ | UpsetPlot _
  | Title _ | Suptitle _ | Savefig _ | Show => true
  | _ => false
  end.

(** The sets an event hands to a renderer. *)
Definition rendered_sets (e : event) : list (gset variant_key) :=
  match e with
  | Venn2 subsets _ | Venn3 subsets _ => subsets
  | UpsetPlot contents => snd <$> contents
  | _ => []
  end.

(** The diagram family a run selected. *)
Inductive diagram := Pairwise | MultiSet.

Definition selected (m : M unit) : option diagram :=
  if existsb is_pairwise (trace m) then Some Pairwise
  else if existsb is_multiset (trace m) then Some MultiSet
  else None.

Definition is_output (token : string) : bool := String.eqb token "--output".

(** Length of the run of [--output] tokens that ends the token list. *)
Fixpoint trailing_outputs (tokens : list string) : nat :=
  match tokens with
  | [] => 0
  | t :: rest =>
      if is_output t && forallb is_output rest
      then S (trailing_outputs rest)
      else trailing_outputs rest
  end.

(** [c in s] for a character. *)
Fixpoint has_char (c : ascii) (s : string) : bool :=
  match s with
  | EmptyString => false
  | String a rest => Ascii.eqb a c || has_char c rest
  end.

(** The informational line of the Venn renderer. *)
Definition is_note (e : event) : bool :=
  match e with Stdout line => String.eqb line venn_note | _ => false end.

Definition is_savefig (e : event) : bool :=
  match e with Savefig _ => true | _ => false end.

(** A token the scanner takes as an input file. *)
Definition recognized (arg : string) : bool :=
  Py.endswith arg ".vcf" || Py.endswith arg ".vcf.gz".

(** A small environment for the concrete runs below. *)
Definition rec1 (chrom : string) (pos : Z) (ref : string) (alt : list string) : Variant :=
  mkVariant chrom pos ref alt "." "50" "PASS" "." [].

Definition demo_world : World := {|
  VCF := λ p,
    if String.eqb p "a/x.vcf"
    then Reader (Rec (rec1 "1" 100 "A" ["T"]) (Rec (rec1 "1" 200 "G" []) EndOfFile))
    else if String.eqb p "b/x.vcf"
    then Reader (Rec (rec1 "1" 100 "A" ["T"; "C"]) EndOfFile)
    else if String.eqb p "bad.vcf"
    then Reader (Rec (rec1 "2" 5 "C" ["G"]) (ParseError "bcf_read"))
    else if String.eqb p "c.vcf.gz"
    then Reader EndOfFile
    else OpenError "no such file";
  isdir := λ p, String.eqb p "out"
|}.

(** Command lines and file lists of the concrete runs. *)
Definition four_files : list string := ["a/x.vcf"; "b/x.vcf"; "bad.vcf"; "c.vcf.gz"].
Definition argv_four : list string := "vcf_con.py" :: four_files.
Definition argv_trailing_flag : list string := ["vcf_con.py"; "a.vcf"; "b.vcf"; "--output"].
Definition argv_one_file_flag : list string := ["vcf_con.py"; "a.vcf"; "--output"].
Definition argv_output_twice : list string := ["vcf_con.py"; "x.vcf"; "--output"; "--output"].
Definition argv_empty_output : list string :=
  ["vcf_con.py"; "a/x.vcf"; "b/x.vcf"; "--output"; ""].
Definition argv_dir_output : list string :=
  ["vcf_con.py"; "a/x.vcf"; "bad.vcf"; "--output"; "out"].
Definition same_label_files : list string := ["a/x.vcf"; "b/x.vcf"].

(** ** Further notions used to state properties of the code *)

(** The identities of the records [vcf_file] delivers. *)
Definition ids_of (w : World) (vcf_file : string) : gset variant_key :=
  list_to_set (variant_id <$> records_of w vcf_file).

(** What reading one file leaves in the trace: the open and, when the
    read fails, its diagnostic. *)
Definition read_events (w : World) (vcf_file : string) : list event :=
  OpenVCF vcf_file ::
  match read_failure w vcf_file with
  | Some msg => [Stderr (read_error vcf_file msg)]
  | None => []
  end.

Definition is_stdout (e : event) : bool :=
  match e with Stdout _ => true | _ => false end.

Definition is_stderr (e : event) : bool :=
  match e with Stderr _ => true | _ => false end.

Definition is_figure (e : event) : bool :=
  match e with Figure _ _ => true | _ => false end.

Definition is_diagram (e : event) : bool := is_pairwise e || is_multiset e.

(** The call into the plotting library that a run over [vcf_files] makes:
    [venn2], [venn3] or [from_contents]/[plot], with the sets read back
    from the finished dictionary. *)
Definition diagram_event (w : World) (vcf_files : list string) : event :=
  let labels := label_of <$> vcf_files in
  let variant_sets := built w (zip vcf_files labels) [] in
  let subsets := (λ l, default ∅ (dict_get variant_sets l)) <$> labels in
  if decide (length vcf_files = 2%nat) then Venn2 subsets labels
  else if decide (length vcf_files = 3%nat) then Venn3 subsets labels
  else UpsetPlot variant_sets.

Definition figure_title : string := "Variant Concordance Between VCF Files".

(** ** Sanity checks of the primitives *)

Example endswith_vcf : Py.endswith "a/b/s1.vcf" ".vcf" = true.
Proof. reflexivity. Qed.
Example endswith_short : Py.endswith "cf" ".vcf" = false.
Proof. reflexivity. Qed.
Example endswith_gz : Py.endswith "s1.vcf.gz" ".vcf" = false.
Proof. reflexivity. Qed.
Example replace_all_occurrences : Py.replace "a.vcf.b.vcf" ".vcf" "" = "a.b".
Proof. reflexivity. Qed.
Example replace_no_overlap : Py.replace "aaa" "aa" "b" = "ba".
Proof. reflexivity. Qed.
Example replace_empty_pattern : Py.replace "abc" "" "-" = "-a-b-c-".
Proof. reflexivity. Qed.
Example basename_nested : Py.basename "a/b/s1.vcf" = "s1.vcf".
Proof. reflexivity. Qed.
Example basename_plain : Py.basename "s1.vcf" = "s1.vcf".
Proof. reflexivity. Qed.
Example basename_trailing : Py.basename "a/b/" = "".
Proof. reflexivity. Qed.
Example path_join_dir : Py.path_join "out" "vcf_concordance.png" = "out/vcf_concordance.png".
Proof. reflexivity. Qed.
Example path_join_slash : Py.path_join "out/" "vcf_concordance.png" = "out/vcf_concordance.png".
Proof. reflexivity. Qed.


(** ** Concrete runs *)

(** Two files with the same base name: both circles carry the set of the
    second file. *)
Example run_same_label :
  main demo_world ["vcf_con.py"; "a/x.vcf"; "b/x.vcf"]
  = ([OpenVCF "a/x.vcf"; OpenVCF "b/x.vcf"; Figure 10 8;
      Venn2 [{[("1", 100, "A", "T")]}; {[("1", 100, "A", "T")]}] ["x"; "x"];
      Title "Variant Concordance Between VCF Files"; Show],
     inr ()).
Proof. vm_compute. reflexivity. Qed.

(** A file that fails after its first record, and an output directory. *)
Example run_partial_read :
  main demo_world argv_dir_output
  = ([OpenVCF "a/x.vcf"; OpenVCF "bad.vcf";
      Stderr "Error reading bad.vcf: bcf_read"; Figure 10 8;
      Venn2 [{[("1", 100, "A", "T"); ("1", 200, "G", "")]}; {[("2", 5, "C", "G")]}]
            ["x"; "bad"];
      Title "Variant Concordance Between VCF Files";
      Savefig "out/vcf_concordance.png";
      Stdout "Venn diagram saved to out/vcf_concordance.png"],
     inr ()).
Proof. vm_compute. reflexivity. Qed.

(** One recognized file: a line on standard output and status 1. *)
Example run_one_file :
  main demo_world ["vcf_con.py"; "a/x.vcf"; "notes.txt"]
  = ([Stdout too_few], inl (SystemExit 1)).
Proof. reflexivity. Qed.

(** The counts of two overlapping sets, by membership pattern. *)
Example upset_counts_two :
  upset_counts [("a", {[("1", 1, "A", "T"); ("1", 2, "A", "T")]});
                ("b", {[("1", 2, "A", "T")]})]
  = [([true; true], 1%nat); ([true; false], 1%nat); ([false; true], 0%nat)].
Proof. vm_compute. reflexivity. Qed.

(** ** The monad and the reader *)

Lemma bind_inr {A B : Type} (t : list event) (a : A) (k : A → M B) :
  (t, inr a) ≫= k = (t ++ (k a).1, (k a).2).
Proof. unfold mbind, M_bind. by destruct (k a). Qed.

Lemma bind_inl {A B : Type} (t : list event) (e : exn) (k : A → M B) :
  (t, inl e) ≫= k = (t, inl e).
Proof. reflexivity. Qed.

Lemma read_loop_spec (reader : vcf_stream) (variants : gset variant_key) :
  read_loop reader variants
  = (variants ∪ list_to_set (variant_id <$> records_read reader), stream_error reader).
Proof.
  revert variants. induction reader as [|v rest IH|msg]; intros variants; simpl.
  - by rewrite (right_id_L ∅ (∪)).
  - by rewrite IH, (assoc_L (∪)).
  - by rewrite (right_id_L ∅ (∪)).
Qed.

Lemma read_vcf_variants_spec (w : World) (vcf_file : string) :
  read_vcf_variants w vcf_file
  = (OpenVCF vcf_file ::
       match read_failure w vcf_file with
       | Some msg => [Stderr (read_error vcf_file msg)]
       | None => []
       end,
     inr (list_to_set (variant_id <$> records_of w vcf_file))).
Proof.
  unfold read_vcf_variants, read_failure, records_of.
  destruct (VCF w vcf_file) as [msg|reader]; [reflexivity|].
  rewrite read_loop_spec, (left_id_L ∅ (∪)).
  by destruct (stream_error reader).
Qed.


(** The set-building loop never raises: a failing file only leaves a line
    on the error stream. *)
Lemma build_sets_outcome (w : World) (pairs : list (string * string))
    (variant_sets : list (string * gset variant_key)) :
  outcome (build_sets w pairs variant_sets) = inr (built w pairs variant_sets).
Proof.
  revert variant_sets. induction pairs as [|[f l] pairs IH]; intros d; [reflexivity|].
  simpl. rewrite read_vcf_variants_spec, bind_inr. apply IH.
Qed.

Lemma build_sets_spec (w : World) (pairs : list (string * string))
    (variant_sets : list (string * gset variant_key)) :
  build_sets w pairs variant_sets
  = (trace (build_sets w pairs variant_sets), inr (built w pairs variant_sets)).
Proof.
  pose proof (build_sets_outcome w pairs variant_sets) as H.
  destruct (build_sets w pairs variant_sets) as [t r]. simpl in *. by subst.
Qed.

Lemma build_sets_trace_cons (w : World) (f l : string) (pairs : list (string * string))
    (variant_sets : list (string * gset variant_key)) :
  trace (build_sets w ((f, l) :: pairs) variant_sets)
  = trace (read_vcf_variants w f)
    ++ trace (build_sets w pairs
               (dict_set variant_sets l (list_to_set (variant_id <$> records_of w f)))).
Proof. simpl. rewrite read_vcf_variants_spec, bind_inr. reflexivity. Qed.

Lemma read_trace_events (w : World) (f : string) :
  forallb is_read_event (trace (read_vcf_variants w f)) = true.
Proof. rewrite read_vcf_variants_spec. simpl. by destruct (read_failure w f). Qed.

Lemma build_sets_events (w : World) (pairs : list (string * string))
    (variant_sets : list (string * gset variant_key)) :
  forallb is_read_event (trace (build_sets w pairs variant_sets)) = true.
Proof.
  revert variant_sets. induction pairs as [|[f l] pairs IH]; intros d; [reflexivity|].
  rewrite build_sets_trace_cons, forallb_app, read_trace_events, IH. reflexivity.
Qed.

(** ** The dictionary *)

Lemma dict_get_set {V : Type} (d : list (string * V)) (k k' : string) (v : V) :
  dict_get (dict_set d k v) k' = if decide (k = k') then Some v else dict_get d k'.
Proof.
  induction d as [|[k0 v0] d IH]; simpl.
  - repeat case_decide; congruence.
  - repeat (case_decide; simpl); congruence.
Qed.

Lemma dict_get_Some_values {V : Type} (d : list (string * V)) (k : string) (v : V) :
  dict_get d k = Some v → v ∈ d.*2.
Proof.
  induction d as [|[k0 v0] d IH]; simpl; [done|].
  case_decide; intros Hget.
  - injection Hget as ->. apply list_elem_of_here.
  - apply list_elem_of_further. auto.
Qed.

Lemma dict_set_keys {V : Type} (d : list (string * V)) (k : string) (v : V) :
  (dict_set d k v).*1 = if decide (k ∈ d.*1) then d.*1 else d.*1 ++ [k].
Proof.
  induction d as [|[k0 v0] d IH]; [done|].
  cbn [dict_set]. rewrite fmap_cons. cbn [fst].
  destruct (decide (k0 = k)) as [->|Hne]; rewrite fmap_cons; cbn [fst].
    + rewrite decide_True; [done|apply list_elem_of_here].
    + rewrite IH. destruct (decide (k ∈ d.*1)) as [Hin|Hout].
      * rewrite decide_True; [done|by apply list_elem_of_further].
      * rewrite decide_False; [done|].
        intros [?|?]%elem_of_cons; congruence.
Qed.

(** After the loop every label looks up the set of the last file that
    carries it; labels not seen keep what the dictionary held. *)
Lemma built_get (w : World) (pairs : list (string * string))
    (d : list (string * gset variant_key)) (l : string) :
  dict_get (built w pairs d) l
  = match last (filter (λ p, p.2 = l) pairs) with
    | Some p => Some (list_to_set (variant_id <$> records_of w p.1))
    | None => dict_get d l
    end.
Proof.
  revert d. induction pairs as [|[f l'] pairs IH]; intros d; [reflexivity|].
  change (built w ((f, l') :: pairs) d)
    with (built w pairs (dict_set d l' (list_to_set (variant_id <$> records_of w f)))).
  rewrite IH, dict_get_set, filter_cons. simpl.
  destruct (decide (l' = l)) as [->|Hne].
  - destruct (filter (λ p, p.2 = l) pairs) as [|q qs] eqn:E; [reflexivity|].
    change (last ((f, l) :: q :: qs)) with (last (q :: qs)).
    destruct (last (q :: qs)) eqn:El; [reflexivity|by apply last_None in El].
  - reflexivity.
Qed.

Lemma built_keys_NoDup (w : World) (pairs : list (string * string))
    (d : list (string * gset variant_key)) :
  NoDup d.*1 → NoDup (built w pairs d).*1.
Proof.
  revert d. induction pairs as [|[f l] pairs IH]; intros d Hd; [done|].
  apply IH. rewrite dict_set_keys. case_decide as Hin; [done|].
  apply NoDup_app. split_and!; [done| |apply NoDup_singleton].
  intros x Hx ->%list_elem_of_singleton. done.
Qed.

Lemma built_keys_subseteq (w : World) (pairs : list (string * string))
    (d : list (string * gset variant_key)) (k : string) :
  k ∈ (built w pairs d).*1 → k ∈ d.*1 ∨ k ∈ pairs.*2.
Proof.
  revert d. induction pairs as [|[f l] pairs IH]; intros d Hk; [by left|].
  apply IH in Hk as [Hk|Hk].
  - rewrite dict_set_keys in Hk. case_decide; [by left|].
    apply elem_of_app in Hk as [?|Hk]; [by left|].
    apply list_elem_of_singleton in Hk as ->.
    right. apply list_elem_of_here.
  - right. by apply list_elem_of_further.
Qed.

(** Two positions with one label leave the dictionary shorter than the
    list of files. *)
Lemma built_length_collision (w : World) (pairs : list (string * string))
    (i j : nat) (l : string) :
  i ≠ j → pairs.*2 !! i = Some l → pairs.*2 !! j = Some l →
  (length (built w pairs []) < length pairs)%nat.
Proof.
  intros Hij Hi Hj.
  assert (NoDup (built w pairs []).*1) as Hnd
    by (apply built_keys_NoDup; constructor).
  assert ((built w pairs []).*1 ⊆+ pairs.*2) as Hsub.
  { apply NoDup_submseteq; [done|]. intros k Hk.
    apply built_keys_subseteq in Hk as [Hk|Hk]; [by apply elem_of_nil in Hk|done]. }
  pose proof (submseteq_length _ _ Hsub) as Hle.
  rewrite !length_fmap in Hle.
  destruct (decide (length (built w pairs []) = length pairs)) as [Heq|]; [|lia].
  exfalso. apply Hij.
  assert (pairs.*2 ≡ₚ (built w pairs []).*1) as Hperm.
  { symmetry. apply submseteq_length_Permutation; [done|]. rewrite !length_fmap. lia. }
  rewrite <- Hperm in Hnd.
  by eapply NoDup_lookup.
Qed.

(** ** The renderers *)

Lemma save_or_show_spec (kind : string) (output_file : option string) :
  save_or_show kind output_file
  = (match output_file with
     | Some path =>
         if String.eqb path ""
         then [Show]
         else [Savefig path; Stdout (kind +:+ " saved to " +:+ path)]
     | None => [Show]
     end, inr ()).
Proof.
  destruct output_file as [path|]; [|reflexivity].
  unfold save_or_show, Py.truthy. by destruct (String.eqb path "").
Qed.

Lemma emit_bind {B : Type} (e : event) (k : M B) :
  (emit e;; k) = (e :: k.1, k.2).
Proof. unfold emit. by rewrite bind_inr. Qed.

Lemma create_upset_plot_spec (w : World) (vcf_files : list string)
    (output_file : option string) :
  let pairs := zip vcf_files (label_of <$> vcf_files) in
  create_upset_plot w vcf_files output_file
  = (trace (build_sets w pairs [])
       ++ Figure 12 8 :: UpsetPlot (built w pairs [])
       :: Suptitle "Variant Concordance Between VCF Files"
       :: trace (save_or_show "UpSet plot" output_file),
     inr ()).
Proof.
  intros pairs. unfold create_upset_plot. fold pairs.
  rewrite build_sets_spec, bind_inr, !emit_bind, save_or_show_spec.
  reflexivity.
Qed.

Lemma built_get_is_Some (w : World) (pairs : list (string * string))
    (d : list (string * gset variant_key)) (l : string) :
  l ∈ pairs.*2 → is_Some (dict_get (built w pairs d) l).
Proof.
  intros Hl. rewrite built_get.
  destruct (last (filter (λ p, p.2 = l) pairs)) as [p|] eqn:E; [by eexists|].
  apply last_None in E.
  apply list_elem_of_fmap in Hl as ([f l'] & Heq & Hin).
  simpl in Heq. subst l.
  assert ((f, l') ∈ filter (λ p, p.2 = l') pairs) as Hf
    by (by apply list_elem_of_filter).
  rewrite E in Hf. by apply elem_of_nil in Hf.
Qed.

Lemma dict_getitem_Some {V : Type} (d : list (string * V)) (k : string) (v : V) :
  dict_get d k = Some v → dict_getitem d k = ([], inr v).
Proof. unfold dict_getitem. by intros ->. Qed.

Lemma ret_bind {A B : Type} (a : A) (k : A → M B) : (mret a ≫= k) = k a.
Proof. unfold mret, M_ret. rewrite bind_inr. by destruct (k a). Qed.

Lemma pure_bind {A B : Type} (a : A) (k : A → M B) : (([], inr a) : M A) ≫= k = k a.
Proof. rewrite bind_inr. by destruct (k a). Qed.

Lemma create_venn_diagram_two (w : World) (f0 f1 : string) (output_file : option string) :
  let pairs := [(f0, label_of f0); (f1, label_of f1)] in
  ∃ s0 s1,
    dict_get (built w pairs []) (label_of f0) = Some s0 ∧
    dict_get (built w pairs []) (label_of f1) = Some s1 ∧
    create_venn_diagram w [f0; f1] output_file
    = (trace (build_sets w pairs [])
         ++ Figure 10 8 :: Venn2 [s0; s1] [label_of f0; label_of f1]
         :: Title "Variant Concordance Between VCF Files"
         :: trace (save_or_show "Venn diagram" output_file),
       inr ()).
Proof.
  intros pairs.
  destruct (built_get_is_Some w pairs [] (label_of f0)) as [s0 H0];
    [apply list_elem_of_here|].
  destruct (built_get_is_Some w pairs [] (label_of f1)) as [s1 H1];
    [apply list_elem_of_further, list_elem_of_here|].
  exists s0, s1. split_and!; [done..|].
  unfold create_venn_diagram.
  change (zip [f0; f1] (label_of <$> [f0; f1])) with pairs.
  rewrite build_sets_spec, bind_inr, emit_bind.
  rewrite decide_True by done.
  change (list_getitem (label_of <$> [f0; f1]) 0) with (mret (label_of f0) : M string).
  change (list_getitem (label_of <$> [f0; f1]) 1) with (mret (label_of f1) : M string).
  rewrite ret_bind, (dict_getitem_Some _ _ _ H0), pure_bind.
  rewrite ret_bind, (dict_getitem_Some _ _ _ H1), pure_bind.
  rewrite !emit_bind, save_or_show_spec. reflexivity.
Qed.

Lemma create_venn_diagram_three (w : World) (f0 f1 f2 : string)
    (output_file : option string) :
  let pairs := [(f0, label_of f0); (f1, label_of f1); (f2, label_of f2)] in
  ∃ s0 s1 s2,
    dict_get (built w pairs []) (label_of f0) = Some s0 ∧
    dict_get (built w pairs []) (label_of f1) = Some s1 ∧
    dict_get (built w pairs []) (label_of f2) = Some s2 ∧
    create_venn_diagram w [f0; f1; f2] output_file
    = (trace (build_sets w pairs [])
         ++ Figure 10 8
         :: Venn3 [s0; s1; s2] [label_of f0; label_of f1; label_of f2]
         :: Title "Variant Concordance Between VCF Files"
         :: trace (save_or_show "Venn diagram" output_file),
       inr ()).
Proof.
  intros pairs.
  destruct (built_get_is_Some w pairs [] (label_of f0)) as [s0 H0];
    [apply list_elem_of_here|].
  destruct (built_get_is_Some w pairs [] (label_of f1)) as [s1 H1];
    [apply list_elem_of_further, list_elem_of_here|].
  destruct (built_get_is_Some w pairs [] (label_of f2)) as [s2 H2];
    [do 2 apply list_elem_of_further; apply list_elem_of_here|].
  exists s0, s1, s2. split_and!; [done..|].
  unfold create_venn_diagram.
  change (zip [f0; f1; f2] (label_of <$> [f0; f1; f2])) with pairs.
  rewrite build_sets_spec, bind_inr, emit_bind.
  rewrite decide_False by done. rewrite decide_True by done.
  change (list_getitem (label_of <$> [f0; f1; f2]) 0) with (mret (label_of f0) : M string).
  change (list_getitem (label_of <$> [f0; f1; f2]) 1) with (mret (label_of f1) : M string).
  change (list_getitem (label_of <$> [f0; f1; f2]) 2) with (mret (label_of f2) : M string).
  rewrite ret_bind, (dict_getitem_Some _ _ _ H0), pure_bind.
  rewrite ret_bind, (dict_getitem_Some _ _ _ H1), pure_bind.
  rewrite ret_bind, (dict_getitem_Some _ _ _ H2), pure_bind.
  rewrite !emit_bind, save_or_show_spec. reflexivity.
Qed.

(** Called with any other number of files the Venn renderer prints its
    note and defers to the UpSet renderer. *)
Lemma create_venn_diagram_other (w : World) (vcf_files : list string)
    (output_file : option string) :
  length vcf_files ≠ 2%nat → length vcf_files ≠ 3%nat →
  let pairs := zip vcf_files (label_of <$> vcf_files) in
  create_venn_diagram w vcf_files output_file
  = (trace (build_sets w pairs [])
       ++ Figure 10 8 :: Stdout venn_note
       :: trace (create_upset_plot w vcf_files output_file),
     inr ()).
Proof.
  intros H2 H3 pairs. unfold create_venn_diagram. fold pairs.
  rewrite build_sets_spec, bind_inr, emit_bind.
  rewrite !decide_False by done.
  rewrite emit_bind, create_upset_plot_spec. reflexivity.
Qed.

(** ** The dispatcher *)

Lemma existsb_read_events (P : event → bool) (t : list event) :
  (∀ e, is_read_event e = true → P e = false) →
  forallb is_read_event t = true → existsb P t = false.
Proof.
  intros HP. induction t as [|e t IH]; [done|]. simpl.
  intros [He Ht]%andb_true_iff. by rewrite (HP e He), IH.
Qed.

Lemma build_sets_no (P : event → bool) (w : World) (pairs : list (string * string))
    (d : list (string * gset variant_key)) :
  (∀ e, is_read_event e = true → P e = false) →
  existsb P (trace (build_sets w pairs d)) = false.
Proof. intros HP. apply existsb_read_events, build_sets_events. done. Qed.

Lemma save_or_show_no (P : event → bool) (kind : string) (output_file : option string) :
  P Show = false → (∀ path, P (Savefig path) = false) → (∀ line, P (Stdout line) = false) →
  existsb P (trace (save_or_show kind output_file)) = false.
Proof.
  intros HS HF HO. rewrite save_or_show_spec.
  destruct output_file as [path|]; simpl; [|by rewrite HS].
  destruct (String.eqb path ""); simpl; by rewrite ?HS, ?HF, ?HO.
Qed.

Local Ltac by_event := intros [] ?; done.

Lemma upset_selected (w : World) (vcf_files : list string) (output_file : option string) :
  selected (create_upset_plot w vcf_files output_file) = Some MultiSet.
Proof.
  unfold selected. rewrite create_upset_plot_spec. cbn [trace fst].
  rewrite !existsb_app. cbn [existsb is_pairwise is_multiset].
  rewrite (build_sets_no is_pairwise) by by_event.
  rewrite (save_or_show_no is_pairwise) by done.
  rewrite orb_true_r. reflexivity.
Qed.

Lemma venn_two_selected (w : World) (f0 f1 : string) (output_file : option string) :
  selected (create_venn_diagram w [f0; f1] output_file) = Some Pairwise.
Proof.
  destruct (create_venn_diagram_two w f0 f1 output_file) as (s0 & s1 & _ & _ & ->).
  unfold selected. cbn [trace fst]. rewrite existsb_app. cbn [existsb is_pairwise].
  by rewrite orb_true_r.
Qed.

Lemma venn_three_selected (w : World) (f0 f1 f2 : string) (output_file : option string) :
  selected (create_venn_diagram w [f0; f1; f2] output_file) = Some Pairwise.
Proof.
  destruct (create_venn_diagram_three w f0 f1 f2 output_file)
    as (s0 & s1 & s2 & _ & _ & _ & ->).
  unfold selected. cbn [trace fst]. rewrite existsb_app. cbn [existsb is_pairwise].
  by rewrite orb_true_r.
Qed.

(** The dispatch in one equation: no diagram below two files, the Venn
    family for two and three, the UpSet family from four on. *)
Lemma analyze_selected (w : World) (vcf_files : list string) (output_file : option string) :
  selected (analyze_vcf_concordance w vcf_files output_file)
  = if decide (length vcf_files < 2)%nat then None
    else if decide (length vcf_files ≤ 3)%nat then Some Pairwise
    else Some MultiSet.
Proof.
  unfold analyze_vcf_concordance.
  destruct (decide (length vcf_files < 2)%nat) as [Hlt|Hge]; [reflexivity|].
  destruct (decide (length vcf_files ≤ 3)%nat) as [Hle|Hgt].
  - destruct vcf_files as [|f0 [|f1 [|f2 [|f3 rest]]]]; simpl in *; try lia.
    + apply venn_two_selected.
    + apply venn_three_selected.
  - apply upset_selected.
Qed.

(** Neither [KeyError] nor [IndexError] is reachable in the dispatcher and
    the renderers: every label read back was stored by the loop. *)
Lemma analyze_outcome (w : World) (vcf_files : list string) (output_file : option string) :
  outcome (analyze_vcf_concordance w vcf_files output_file) = inr ().
Proof.
  unfold analyze_vcf_concordance.
  destruct (decide (length vcf_files < 2)%nat) as [Hlt|Hge]; [reflexivity|].
  destruct (decide (length vcf_files ≤ 3)%nat) as [Hle|Hgt].
  - destruct vcf_files as [|f0 [|f1 [|f2 [|f3 rest]]]]; simpl in *; try lia.
    + by destruct (create_venn_diagram_two w f0 f1 output_file) as (? & ? & _ & _ & ->).
    + by destruct (create_venn_diagram_three w f0 f1 f2 output_file)
        as (? & ? & ? & _ & _ & _ & ->).
  - by rewrite create_upset_plot_spec.
Qed.

(** ** Claims about the normalizer, the reader and the selector *)

(** C1. Every record is mapped to the tuple of its chromosome, position,
    reference allele and first alternate allele, the fourth field being the
    empty string when the record has no alternate allele. Two records get
    the same identity exactly when these four fields agree; the other
    columns and the alternates after the first play no part. *)
Theorem variant_id_four_fields (r1 r2 : Variant) :
  variant_id r1 = (CHROM r1, POS r1, REF r1, default "" (head (ALT r1)))
  ∧ (variant_id r1 = variant_id r2
     ↔ CHROM r1 = CHROM r2 ∧ POS r1 = POS r2 ∧ REF r1 = REF r2
       ∧ default "" (head (ALT r1)) = default "" (head (ALT r2)))
  ∧ (∀ chrom pos ref id qual filter info gts,
       variant_id (mkVariant chrom pos ref [] id qual filter info gts)
       = (chrom, pos, ref, ""))
  ∧ (∀ chrom pos ref alt more id qual filter info gts id' qual' filter' info' gts',
       variant_id (mkVariant chrom pos ref (alt :: more) id qual filter info gts)
       = variant_id (mkVariant chrom pos ref [alt] id' qual' filter' info' gts')).
Proof.
  assert (∀ r, variant_id r = (CHROM r, POS r, REF r, default "" (head (ALT r)))) as Hid.
  { intros r. unfold variant_id. by destruct (ALT r). }
  split_and!; [apply Hid| |reflexivity..].
  rewrite !Hid. split.
  - intros [= -> -> -> ->]. done.
  - intros (-> & -> & -> & ->). done.
Qed.

(** C2. The selector takes the pairwise (Venn) diagram exactly when it is
    given 2 or 3 files and the multi-set (UpSet) diagram exactly when it is
    given 4 or more, whatever the files contain and whatever output path is
    passed: the decision reads the count alone. *)
Theorem selector_threshold (w : World) (vcf_files : list string)
    (output_file : option string) :
  (selected (analyze_vcf_concordance w vcf_files output_file) = Some Pairwise
   ↔ length vcf_files = 2%nat ∨ length vcf_files = 3%nat)
  ∧ (selected (analyze_vcf_concordance w vcf_files output_file) = Some MultiSet
     ↔ (4 ≤ length vcf_files)%nat)
  ∧ (∀ (w' : World) (vcf_files' : list string) (output_file' : option string),
       length vcf_files' = length vcf_files →
       selected (analyze_vcf_concordance w' vcf_files' output_file')
       = selected (analyze_vcf_concordance w vcf_files output_file)).
Proof.
  split_and!.
  - rewrite analyze_selected. repeat case_decide; split; intros; try done; lia.
  - rewrite analyze_selected. repeat case_decide; split; intros; try done; lia.
  - intros w' vcf_files' output_file' Hlen. rewrite !analyze_selected, Hlen. done.
Qed.

(** C3, as the claim states it, fails: a parser error after the first
    record of [bad.vcf] leaves that record's identity in the returned set. *)
Lemma read_failure_keeps_records :
  read_failure demo_world "bad.vcf" = Some "bcf_read"
  ∧ outcome (read_vcf_variants demo_world "bad.vcf") ≠ inr ∅.
Proof.
  split; [reflexivity|].
  rewrite read_vcf_variants_spec. cbn. discriminate.
Qed.

(** C3, amended. When opening or parsing a file fails, the reader catches
    the error, writes one diagnostic to the error stream and returns the
    identities of the records delivered before the failure: the empty set
    when the file could not be opened (or failed before its first record),
    otherwise a partially filled set. The run goes on: the loop opens every
    file in turn and neither it nor the dispatcher raises. *)
Theorem read_failure_caught (w : World) (vcf_file msg : string) :
  read_failure w vcf_file = Some msg →
  read_vcf_variants w vcf_file
  = ([OpenVCF vcf_file; Stderr (read_error vcf_file msg)],
     inr (list_to_set (variant_id <$> records_of w vcf_file)))
  ∧ match VCF w vcf_file with
    | OpenError _ => outcome (read_vcf_variants w vcf_file) = inr ∅
    | Reader reader => records_of w vcf_file = records_read reader
    end
  ∧ (∀ pairs d,
       outcome (build_sets w pairs d) = inr (built w pairs d)
       ∧ filter (λ e, is_open e = true) (trace (build_sets w pairs d))
         = OpenVCF <$> pairs.*1)
  ∧ (∀ vcf_files output_file,
       outcome (analyze_vcf_concordance w vcf_files output_file) = inr ()).
Proof.
  intros Hfail. split_and!.
  - by rewrite read_vcf_variants_spec, Hfail.
  - rewrite read_vcf_variants_spec. unfold records_of.
    by destruct (VCF w vcf_file).
  - intros pairs d. split; [apply build_sets_outcome|].
    revert d. induction pairs as [|[f l] pairs IH]; intros d; [reflexivity|].
    rewrite build_sets_trace_cons, filter_app, IH, read_vcf_variants_spec.
    cbn [trace fst]. rewrite filter_cons_True by done.
    destruct (read_failure w f); reflexivity.
  - apply analyze_outcome.
Qed.

Lemma read_failure_caught_witness :
  read_failure demo_world "bad.vcf" = Some "bcf_read"
  ∧ read_vcf_variants demo_world "bad.vcf"
    = ([OpenVCF "bad.vcf"; Stderr (read_error "bad.vcf" "bcf_read")],
       inr (list_to_set (variant_id <$> records_of demo_world "bad.vcf"))).
Proof.
  split; [reflexivity|].
  exact (proj1 (read_failure_caught demo_world "bad.vcf" "bcf_read" eq_refl)).
Defined.

(** The note of the Venn renderer is never printed by the dispatcher: it
    calls that renderer with 2 or 3 files only. *)
Lemma analyze_no_note (w : World) (vcf_files : list string) (output_file : option string) :
  existsb is_note (trace (analyze_vcf_concordance w vcf_files output_file)) = false.
Proof.
  assert (∀ kind, kind = "Venn diagram" ∨ kind = "UpSet plot" →
    existsb is_note (trace (save_or_show kind output_file)) = false) as Hsave.
  { intros kind Hkind. rewrite save_or_show_spec.
    destruct output_file as [path|]; [|reflexivity].
    destruct (String.eqb path ""); [reflexivity|].
    by destruct Hkind as [-> | ->]. }
  unfold analyze_vcf_concordance.
  destruct (decide (length vcf_files < 2)%nat) as [Hlt|Hge]; [reflexivity|].
  destruct (decide (length vcf_files ≤ 3)%nat) as [Hle|Hgt].
  - destruct vcf_files as [|f0 [|f1 [|f2 [|f3 rest]]]]; simpl in Hge, Hle; try lia.
    + destruct (create_venn_diagram_two w f0 f1 output_file) as (? & ? & _ & _ & ->).
      cbn [trace fst]. rewrite existsb_app, (build_sets_no is_note) by by_event.
      cbn [existsb is_note orb]. apply Hsave. by left.
    + destruct (create_venn_diagram_three w f0 f1 f2 output_file)
        as (? & ? & ? & _ & _ & _ & ->).
      cbn [trace fst]. rewrite existsb_app, (build_sets_no is_note) by by_event.
      cbn [existsb is_note orb]. apply Hsave. by left.
  - rewrite create_upset_plot_spec. cbn [trace fst].
    rewrite existsb_app, (build_sets_no is_note) by by_event.
    cbn [existsb is_note orb]. apply Hsave. by right.
Qed.

(** C7, as the claim states it, fails: a run over four files goes to the
    UpSet renderer and prints no note. *)
Lemma four_files_no_note :
  scan_loop argv_four 1 [] None = inr (four_files, None)
  ∧ (4 ≤ length four_files)%nat
  ∧ selected (main demo_world argv_four) = Some MultiSet
  ∧ existsb is_note (trace (main demo_world argv_four)) = false.
Proof. vm_compute. split_and!; (done || lia). Qed.

(** C7, amended. With 4 or more files the dispatcher selects the multi-set
    (UpSet) diagram and prints no note. The note that Venn diagrams are not
    recommended above three sets is printed by the Venn renderer itself,
    when it is called directly with such a list, before it hands over to
    the UpSet renderer. *)
Theorem four_or_more_multiset (w : World) (vcf_files : list string)
    (output_file : option string) :
  (4 ≤ length vcf_files)%nat →
  selected (analyze_vcf_concordance w vcf_files output_file) = Some MultiSet
  ∧ existsb is_note (trace (analyze_vcf_concordance w vcf_files output_file)) = false
  ∧ selected (create_venn_diagram w vcf_files output_file) = Some MultiSet
  ∧ existsb is_note (trace (create_venn_diagram w vcf_files output_file)) = true.
Proof.
  intros Hlen. split_and!.
  - rewrite analyze_selected. repeat case_decide; (done || lia).
  - apply analyze_no_note.
  - pose proof (upset_selected w vcf_files output_file) as Hup.
    unfold selected in *.
    rewrite create_venn_diagram_other by lia. cbn [trace fst].
    rewrite !existsb_app.
    rewrite (build_sets_no is_pairwise), (build_sets_no is_multiset) by by_event.
    cbn [existsb is_pairwise is_multiset orb]. exact Hup.
  - rewrite create_venn_diagram_other by lia. cbn [trace fst].
    rewrite existsb_app. cbn [existsb is_note].
    replace (String.eqb venn_note venn_note) with true by (symmetry; apply String.eqb_refl).
    by rewrite orb_true_r.
Qed.

Lemma four_or_more_multiset_witness :
  (4 ≤ length four_files)%nat
  ∧ selected (analyze_vcf_concordance demo_world four_files None) = Some MultiSet.
Proof.
  split; [simpl; lia|].
  apply (four_or_more_multiset demo_world four_files None). simpl; lia.
Defined.

(** ** The command-line scanner *)

Lemma drop_lookup_cons {A : Type} (l : list A) (i : nat) (x : A) :
  l !! i = Some x → drop i l = x :: drop (S i) l.
Proof.
  revert i. induction l as [|y l IH]; intros [|i] H; simplify_eq/=; auto.
Qed.

(** The index loop reads the tokens [argv[i:]] front to back. *)
Lemma scan_loop_tokens (argv : list string) (i : nat) (vcf_files : list string)
    (output_file : option string) :
  scan_loop argv i vcf_files output_file
  = scan_tokens (drop i argv) vcf_files output_file.
Proof.
  funelim (scan_loop argv i vcf_files output_file);
    repeat match goal with
    | H : _ !! _ = None |- _ => apply lookup_ge_None in H
    | H : ?l !! ?j = Some _ |- context [drop ?j ?l] =>
        rewrite (drop_lookup_cons _ _ _ H); simpl
    | H : (_ || _) = _ |- _ => rewrite H; clear H
    | H : String.eqb _ _ = _ |- _ => rewrite H; clear H
    | H : ?l !! (?j + 1)%nat = Some _ |- context [drop (S ?j) ?l] =>
        replace (S j) with (j + 1)%nat by lia
    | H : (length ?l ≤ ?j + 1)%nat |- context [drop (S ?j) ?l] =>
        rewrite (drop_ge l (S j)) by lia
    end;
    try (rewrite drop_ge by lia); try reflexivity; try lia.
  all: match goal with
       | H : scan_loop _ _ _ _ = scan_tokens _ _ _ |- _ => rewrite H
       end.
  all: do 2 f_equal; lia.
Qed.

(** Induction that follows the scanner: one token, or a flag and its value. *)
Lemma scan_tokens_ind2 (P : list string → Prop) :
  P [] →
  (∀ arg, P [arg]) →
  (∀ arg path rest, P (path :: rest) → P rest → P (arg :: path :: rest)) →
  ∀ tokens, P tokens.
Proof.
  intros Hnil Hone Hstep tokens.
  assert (P tokens ∧ ∀ arg, P (arg :: tokens)) as [H _]; [|exact H].
  induction tokens as [|t tokens [IH1 IH2]]; [by split|].
  split; [apply IH2|]. intros arg. apply Hstep; [apply IH2|apply IH1].
Qed.

Lemma recognized_not_output (arg : string) :
  recognized arg = true → is_output arg = false.
Proof.
  unfold is_output. destruct (String.eqb arg "--output") eqn:E; [|done].
  apply String.eqb_eq in E as ->. done.
Qed.

Lemma trailing_outputs_cons (t : string) (rest : list string) :
  is_output t = false → trailing_outputs (t :: rest) = trailing_outputs rest.
Proof. simpl. by intros ->. Qed.

Lemma trailing_outputs_flag_value (t path : string) (rest : list string) :
  is_output t = true →
  Nat.odd (trailing_outputs (t :: path :: rest)) = Nat.odd (trailing_outputs rest).
Proof.
  intros Ht. cbn [trailing_outputs forallb]. rewrite Ht.
  by destruct (is_output path && forallb is_output rest).
Qed.

(** The only exception of the scanner is the [IndexError] of a flag read
    at the last position, which happens exactly when the tokens end in an
    odd number of [--output]. *)
Lemma scan_tokens_result (tokens vcf_files : list string) (output_file : option string) :
  if Nat.odd (trailing_outputs tokens)
  then scan_tokens tokens vcf_files output_file = inl IndexError
  else ∃ files out, scan_tokens tokens vcf_files output_file = inr (files, out).
Proof.
  revert vcf_files output_file.
  induction tokens as [|arg|arg path rest IH1 IH2] using scan_tokens_ind2;
    intros vcf_files output_file.
  - simpl. eauto.
  - simpl. fold (recognized arg). fold (is_output arg).
    destruct (recognized arg) eqn:Hrec.
    + rewrite (recognized_not_output _ Hrec). simpl. eauto.
    + destruct (is_output arg); simpl; eauto.
  - cbn [scan_tokens]. fold (recognized arg). fold (is_output arg).
    destruct (recognized arg) eqn:Hrec.
    + rewrite trailing_outputs_cons by by apply recognized_not_output. apply IH1.
    + destruct (is_output arg) eqn:Hout.
      * rewrite trailing_outputs_flag_value by done. apply IH2.
      * rewrite trailing_outputs_cons by done. apply IH1.
Qed.

Lemma trailing_outputs_snoc_flag (tokens : list string) :
  trailing_outputs (tokens ++ ["--output"]) = S (trailing_outputs tokens).
Proof.
  induction tokens as [|t tokens IH]; [reflexivity|].
  cbn [app trailing_outputs]. rewrite forallb_app, IH. cbn [forallb is_output].
  change (String.eqb "--output" "--output") with true.
  rewrite !andb_true_r. by destruct (is_output t && forallb is_output tokens).
Qed.

Lemma trailing_outputs_snoc_other (tokens : list string) (t : string) :
  is_output t = false → trailing_outputs (tokens ++ [t]) = 0%nat.
Proof.
  intros Ht. induction tokens as [|t' tokens IH]; simpl; [by rewrite Ht|].
  rewrite forallb_app. simpl. rewrite Ht, IH, andb_false_r, andb_false_r. done.
Qed.

(** [trailing_outputs] is the length of the maximal run of [--output]
    tokens at the end of the list. *)
Lemma trailing_outputs_spec (tokens : list string) :
  ∃ front, tokens = front ++ replicate (trailing_outputs tokens) "--output"
           ∧ last front ≠ Some "--output".
Proof.
  induction tokens as [|t tokens IH] using rev_ind.
  - exists []. by split.
  - destruct (is_output t) eqn:Ht.
    + apply String.eqb_eq in Ht as ->. destruct IH as (front & Heq & Hlast).
      exists front. split; [|done].
      rewrite trailing_outputs_snoc_flag, replicate_S_end, app_assoc.
      by rewrite <- Heq.
    + exists (tokens ++ [t]). rewrite trailing_outputs_snoc_other by done.
      split; [by rewrite app_nil_r|].
      rewrite last_snoc. intros [= ->]. done.
Qed.

Lemma trailing_outputs_zero (tokens : list string) :
  last tokens ≠ Some "--output" → trailing_outputs tokens = 0%nat.
Proof.
  destruct tokens as [|t tokens _] using rev_ind; [done|].
  rewrite last_snoc. intros Hlast. apply trailing_outputs_snoc_other.
  unfold is_output. destruct (String.eqb t "--output") eqn:E; [|done].
  apply String.eqb_eq in E. congruence.
Qed.

Lemma scan_tokens_length (tokens vcf_files files : list string)
    (output_file out : option string) :
  scan_tokens tokens vcf_files output_file = inr (files, out) →
  (length files ≤ length vcf_files + length tokens)%nat.
Proof.
  revert vcf_files output_file.
  induction tokens as [|arg|arg path rest IH1 IH2] using scan_tokens_ind2;
    intros vcf_files output_file; simpl.
  - intros [= <- _]. lia.
  - destruct (_ || _); [intros [= <- _]; rewrite length_app; simpl; lia|].
    destruct (String.eqb _ _); [done|]. intros [= <- _]. lia.
  - destruct (_ || _).
    + intros H%IH1. rewrite length_app in H. simpl in H. lia.
    + destruct (String.eqb _ _); intros H; [apply IH2 in H|apply IH1 in H];
        simpl in H; lia.
Qed.

(** ** The script body *)

Lemma main_scanned (w : World) (argv vcf_files : list string) (output_file : option string) :
  scan_loop argv 1 [] None = inr (vcf_files, output_file) →
  (2 ≤ length vcf_files)%nat →
  main w argv = analyze_vcf_concordance w vcf_files (resolve_output w output_file).
Proof.
  intros Hscan Hlen. unfold main.
  pose proof Hscan as Hbound. rewrite scan_loop_tokens in Hbound.
  apply scan_tokens_length in Hbound. rewrite length_drop in Hbound. simpl in Hbound.
  rewrite decide_False by lia. rewrite Hscan. by rewrite decide_False by lia.
Qed.

Lemma main_too_few (w : World) (argv vcf_files : list string) (output_file : option string) :
  scan_loop argv 1 [] None = inr (vcf_files, output_file) →
  (length vcf_files < 2)%nat →
  main w argv
  = ([Stdout (if decide (length argv < 3)%nat then usage else too_few)],
     inl (SystemExit 1)).
Proof.
  intros Hscan Hlen. unfold main. case_decide; [reflexivity|].
  rewrite Hscan. by rewrite decide_True by done.
Qed.

(** Whenever the scan completes, the script ends as documented: with fewer
    than two recognized files it prints one line and exits with status 1
    without opening a file or drawing; otherwise it draws and ends with
    status 0, unreadable inputs included. *)
Lemma main_exit_behaviour (w : World) (argv vcf_files : list string)
    (output_file : option string) :
  scan_loop argv 1 [] None = inr (vcf_files, output_file) →
  if decide (length vcf_files < 2)%nat
  then exit_status (main w argv) = 1
       ∧ (trace (main w argv) = [Stdout usage] ∨ trace (main w argv) = [Stdout too_few])
  else exit_status (main w argv) = 0
       ∧ selected (main w argv) ≠ None.
Proof.
  intros Hscan. case_decide as Hlen.
  - rewrite (main_too_few w _ _ _ Hscan Hlen). split; [reflexivity|].
    case_decide; [by left|by right].
  - rewrite (main_scanned w _ _ _ Hscan) by lia. split.
    + unfold exit_status. by rewrite analyze_outcome.
    + rewrite analyze_selected. by repeat case_decide.
Qed.

(** C4 fails on the code: with [--output] as the last token the scanner
    reads [sys.argv[i+1]] past the end. Two recognized files are on the
    command line, yet the script dies with an uncaught [IndexError]
    (status 1) before anything is read or drawn; with one recognized file
    the same happens and no usage message is printed. *)
Theorem trailing_flag_aborts (w : World) :
  length (filter (λ arg, recognized arg = true) (drop 1 argv_trailing_flag)) = 2%nat
  ∧ main w argv_trailing_flag = ([], inl IndexError)
  ∧ exit_status (main w argv_trailing_flag) = 1
  ∧ length (filter (λ arg, recognized arg = true) (drop 1 argv_one_file_flag)) = 1%nat
  ∧ main w argv_one_file_flag = ([], inl IndexError).
Proof. split_and!; reflexivity. Qed.

(** ** Labels *)

Lemma rfind_go_absent (c : ascii) (k last : Z) (s : string) :
  has_char c s = false → Py.rfind_go c k last s = last.
Proof.
  revert k last. induction s as [|a s IH]; intros k last; [done|].
  simpl. intros [Ha Hs]%orb_false_iff. rewrite Ha. by apply IH.
Qed.

Lemma rfind_go_last (c : ascii) (k last : Z) (s rest : string) :
  has_char c rest = false →
  Py.rfind_go c k last (s +:+ String c rest) = k + Z.of_nat (String.length s).
Proof.
  intros Hrest. revert k last. induction s as [|a s IH]; intros k last.
  - simpl. rewrite Ascii.eqb_refl, rfind_go_absent by done. lia.
  - change (String a s +:+ String c rest) with (String a (s +:+ String c rest)).
    cbn [Py.rfind_go String.length]. rewrite IH. lia.
Qed.

Lemma slice_from_past (s t : string) (c : ascii) :
  Py.slice_from (S (String.length s)) (s +:+ String c t) = t.
Proof. induction s as [|a s IH]; [done|]. exact IH. Qed.

(** The base name of [dir/name] is [name] when [name] has no slash. *)
Lemma basename_in_directory (dir name : string) :
  has_char "/" name = false → Py.basename (dir +:+ "/" +:+ name) = name.
Proof.
  intros Hname. unfold Py.basename, Py.rfind.
  change (dir +:+ "/" +:+ name) with (dir +:+ String "/" name).
  rewrite rfind_go_last by done.
  replace (Z.to_nat (0 + Z.of_nat (String.length dir) + 1))
    with (S (String.length dir)) by lia.
  apply slice_from_past.
Qed.

(** A stem without a dot is copied unchanged by [replace('.vcf', '')]. *)
Lemma replace_go_stem (stem s : string) :
  has_char "." stem = false →
  Py.replace_go ".vcf" "" 0 (stem +:+ s) = stem +:+ Py.replace_go ".vcf" "" 0 s.
Proof.
  induction stem as [|a stem IH]; [done|].
  simpl has_char. intros [Ha Hstem]%orb_false_iff.
  change (String a stem +:+ s) with (String a (stem +:+ s)).
  cbn [Py.replace_go String.prefix].
  destruct (ascii_dec "." a) as [<-|_]; [done|].
  by rewrite IH.
Qed.

Lemma has_char_app (c : ascii) (s t : string) :
  has_char c (s +:+ t) = has_char c s || has_char c t.
Proof.
  induction s as [|a s IH]; [done|].
  change (String a s +:+ t) with (String a (s +:+ t)).
  simpl. by rewrite IH, orb_assoc.
Qed.

Lemma append_empty (s : string) : s +:+ "" = s.
Proof.
  induction s as [|a s IH]; [done|].
  change (String a s +:+ "") with (String a (s +:+ "")). by rewrite IH.
Qed.

(** For a file [dir/stem.vcf] or [dir/stem.vcf.gz] whose stem has neither
    slash nor dot, the label is the stem for the plain extension and the
    stem followed by [.gz] for the compressed one. *)
Lemma label_of_simple_stem (dir stem : string) :
  has_char "/" stem = false → has_char "." stem = false →
  label_of (dir +:+ "/" +:+ stem +:+ ".vcf") = stem
  ∧ label_of (dir +:+ "/" +:+ stem +:+ ".vcf.gz") = stem +:+ ".gz".
Proof.
  intros Hslash Hdot. unfold label_of.
  rewrite !basename_in_directory by (by rewrite has_char_app, Hslash).
  unfold Py.replace. rewrite !replace_go_stem by done. split.
  - change (Py.replace_go ".vcf" "" 0 ".vcf") with "". apply append_empty.
  - reflexivity.
Qed.

(** C6 fails on the code: [replace('.vcf', '')] removes the text [.vcf]
    wherever it occurs and nothing else, so a compressed file keeps [.gz]
    in its label, and a stem that contains [.vcf] loses it. *)
Theorem label_of_compressed :
  label_of "data/sample.vcf.gz" = "sample.gz"
  ∧ label_of "data/sample.vcf" = "sample"
  ∧ label_of "run.vcf.old.vcf" = "run.old".
Proof. split_and!; reflexivity. Qed.

(** C9, as the claim states it, fails: here [--output] is the final token
    and the scan completes, because the token is taken as the value of the
    [--output] before it. *)
Lemma output_twice_scans :
  last argv_output_twice = Some "--output"
  ∧ scan_loop argv_output_twice 1 [] None = inr (["x.vcf"], Some "--output").
Proof. split; reflexivity. Qed.

(** C9, amended. The read of the token after [--output] is unguarded: the
    scan ends in [IndexError] exactly when the command line ends in an odd
    number of consecutive [--output] tokens, in particular when the final
    token is [--output] and the token before it is not. No other exception
    is possible, and when every [--output] is followed by a token the scan
    completes normally. *)
Theorem scan_index_error (argv : list string) :
  (scan_loop argv 1 [] None = inl IndexError
   ↔ Nat.odd (trailing_outputs (drop 1 argv)) = true)
  ∧ (scan_loop argv 1 [] None = inl IndexError
     ∨ ∃ files out, scan_loop argv 1 [] None = inr (files, out))
  ∧ (∀ w, outcome (main w argv) = inl IndexError
          ↔ (3 ≤ length argv)%nat ∧ Nat.odd (trailing_outputs (drop 1 argv)) = true)
  ∧ (∀ prog front,
       argv = prog :: front ++ ["--output"] → last front ≠ Some "--output" →
       scan_loop argv 1 [] None = inl IndexError)
  ∧ ((∀ i, argv !! i = Some "--output" → (S i < length argv)%nat) →
     ∃ files out, scan_loop argv 1 [] None = inr (files, out)).
Proof.
  rewrite scan_loop_tokens.
  pose proof (scan_tokens_result (drop 1 argv) [] None) as Hres.
  assert (scan_tokens (drop 1 argv) [] None = inl IndexError
          ↔ Nat.odd (trailing_outputs (drop 1 argv)) = true) as Hiff.
  { destruct (Nat.odd (trailing_outputs (drop 1 argv))).
    - by split.
    - destruct Hres as (files & out & ->). by split. }
  split_and!.
  - exact Hiff.
  - destruct (Nat.odd (trailing_outputs (drop 1 argv))); [by left|by right].
  - intros w. unfold main. rewrite scan_loop_tokens.
    destruct (decide (length argv < 3)%nat) as [Hlt|Hge].
    { split; [done|]. intros [? _]. lia. }
    destruct (scan_tokens (drop 1 argv) [] None) as [e|[files out]] eqn:Hscan.
    + cbn. rewrite <- Hiff. split; [intros [= ->]|intros [_ [= ->]]]; (done || (split; [lia|done])).
    + assert (Nat.odd (trailing_outputs (drop 1 argv)) ≠ true) as Hodd
        by (rewrite <- Hiff; done).
      case_decide; [split; [done|by intros [_ ?]]|].
      rewrite analyze_outcome. split; [done|by intros [_ ?]].
  - intros prog front -> Hlast. apply Hiff. simpl.
    rewrite drop_0, trailing_outputs_snoc_flag, trailing_outputs_zero by done.
    reflexivity.
  - intros Hfollowed.
    destruct (Nat.odd (trailing_outputs (drop 1 argv))) eqn:Hodd; [|exact Hres].
    exfalso.
    destruct (trailing_outputs_spec (drop 1 argv)) as (front & Heq & _).
    destruct (trailing_outputs (drop 1 argv)) as [|k]; [done|].
    rewrite replicate_S_end, app_assoc in Heq.
    destruct argv as [|prog rest]; [by destruct front|].
    simpl in Heq. rewrite drop_0 in Heq. subst rest.
    specialize (Hfollowed (length ((front ++ replicate k "--output") ++ ["--output"]))).
    simpl in Hfollowed. apply Nat.lt_irrefl in Hfollowed; [done|].
    rewrite length_app, Nat.add_1_r. simpl.
    by apply list_lookup_middle.
Qed.

(** ** The output path *)

(** A run that draws ends with the save-or-show step of its renderer, and
    nothing before that step writes a file. *)
Lemma analyze_trace_save (w : World) (vcf_files : list string) (output_file : option string) :
  (2 ≤ length vcf_files)%nat →
  ∃ before,
    trace (analyze_vcf_concordance w vcf_files output_file)
    = before ++ trace (save_or_show
                         (if decide (length vcf_files ≤ 3)%nat
                          then "Venn diagram" else "UpSet plot") output_file)
    ∧ existsb is_savefig before = false.
Proof.
  intros Hlen. unfold analyze_vcf_concordance.
  rewrite decide_False by lia.
  destruct (decide (length vcf_files ≤ 3)%nat) as [Hle|Hgt].
  - destruct vcf_files as [|f0 [|f1 [|f2 [|f3 rest]]]]; simpl in Hlen, Hle; try lia.
    + destruct (create_venn_diagram_two w f0 f1 output_file) as (s0 & s1 & _ & _ & ->).
      eexists (_ ++ [_; _; _]). cbn [trace fst]. split.
      * by rewrite <- app_assoc.
      * rewrite existsb_app, (build_sets_no is_savefig) by by_event. reflexivity.
    + destruct (create_venn_diagram_three w f0 f1 f2 output_file)
        as (s0 & s1 & s2 & _ & _ & _ & ->).
      eexists (_ ++ [_; _; _]). cbn [trace fst]. split.
      * by rewrite <- app_assoc.
      * rewrite existsb_app, (build_sets_no is_savefig) by by_event. reflexivity.
  - rewrite create_upset_plot_spec. eexists (_ ++ [_; _; _]). cbn [trace fst]. split.
    + by rewrite <- app_assoc.
    + rewrite existsb_app, (build_sets_no is_savefig) by by_event. reflexivity.
Qed.

Lemma path_join_default (path : string) :
  path ≠ "" →
  Py.path_join path default_name
  = path +:+ (if Py.endswith path "/" then "" else "/") +:+ default_name.
Proof.
  intros Hne. unfold Py.path_join. cbn [String.prefix default_name].
  destruct path as [|c path]; [done|]. cbn [String.eqb orb].
  by destruct (Py.endswith (String c path) "/").
Qed.

Lemma path_join_default_nonempty (path : string) :
  path ≠ "" → String.eqb (Py.path_join path default_name) "" = false.
Proof.
  intros Hne. rewrite path_join_default by done.
  by destruct path.
Qed.

(** C8, as the claim states it, fails: the empty string is not an
    existing directory, yet it is not used as the image path; the figure
    is shown instead and no file is written. *)
Lemma empty_output_path_not_written :
  scan_loop argv_empty_output 1 [] None = inr (same_label_files, Some "")
  ∧ isdir demo_world "" = false
  ∧ existsb is_savefig (trace (main demo_world argv_empty_output)) = false
  ∧ last (trace (main demo_world argv_empty_output)) = Some Show.
Proof. vm_compute. done. Qed.

(** C8, amended. In a run that reaches the renderer (the scan completes
    with at least two recognized files) and whose last [--output] value is
    a non-empty path: if the path is an existing directory the image is
    written to the path joined with the fixed name [vcf_concordance.png],
    otherwise to the path as given; the write is the only one of the run
    and is followed by the confirmation line that quotes the same path.
    An empty [--output] value writes nothing: the figure is shown. *)
Theorem output_path_resolution (w : World) (argv vcf_files : list string) (path : string) :
  scan_loop argv 1 [] None = inr (vcf_files, Some path) →
  (2 ≤ length vcf_files)%nat →
  let target := if isdir w path then Py.path_join path default_name else path in
  let kind := if decide (length vcf_files ≤ 3)%nat then "Venn diagram" else "UpSet plot" in
  (∃ before,
     trace (main w argv)
     = before ++ (if String.eqb path "" then [Show]
                  else [Savefig target; Stdout (kind +:+ " saved to " +:+ target)])
     ∧ existsb is_savefig before = false)
  ∧ exit_status (main w argv) = 0
  ∧ (if String.eqb path "" then True
     else Py.path_join path default_name
          = path +:+ (if Py.endswith path "/" then "" else "/") +:+ default_name).
Proof.
  intros Hscan Hlen target kind.
  rewrite (main_scanned w _ _ _ Hscan Hlen). split_and!.
  - destruct (analyze_trace_save w vcf_files (resolve_output w (Some path)) Hlen)
      as (before & -> & Hbefore).
    exists before. split; [|done]. f_equal. fold kind.
    rewrite save_or_show_spec. unfold resolve_output, Py.truthy.
    destruct (String.eqb path "") eqn:Hpath; simpl.
    + by rewrite Hpath.
    + subst target. destruct (isdir w path).
      * rewrite path_join_default_nonempty; [done|]. intros ->. done.
      * by rewrite Hpath.
  - unfold exit_status. by rewrite analyze_outcome.
  - destruct (String.eqb path "") eqn:Hpath; [done|].
    apply path_join_default. intros ->. done.
Qed.

Lemma output_path_resolution_witness :
  scan_loop argv_dir_output 1 [] None = inr (["a/x.vcf"; "bad.vcf"], Some "out")
  ∧ isdir demo_world "out" = true
  ∧ ∃ before,
      trace (main demo_world argv_dir_output)
      = before ++ [Savefig "out/vcf_concordance.png";
                   Stdout "Venn diagram saved to out/vcf_concordance.png"]
      ∧ existsb is_savefig before = false.
Proof.
  split; [reflexivity|]. split; [reflexivity|].
  refine (proj1 (output_path_resolution demo_world argv_dir_output
                   ["a/x.vcf"; "bad.vcf"] "out" eq_refl _)).
  simpl. lia.
Defined.

(** ** Files that share a label *)

Lemma zip_labels (vcf_files : list string) :
  zip vcf_files (label_of <$> vcf_files) = (λ f, (f, label_of f)) <$> vcf_files.
Proof.
  induction vcf_files as [|f fs IH]; [done|].
  rewrite !fmap_cons. cbn [zip zip_with]. by f_equal.
Qed.

Lemma zip_labels_snd (vcf_files : list string) :
  (zip vcf_files (label_of <$> vcf_files)).*2 = label_of <$> vcf_files.
Proof. rewrite zip_labels, <- list_fmap_compose. done. Qed.

Lemma built_snoc (w : World) (pairs : list (string * string)) (f l : string)
    (d : list (string * gset variant_key)) :
  built w (pairs ++ [(f, l)]) d
  = dict_set (built w pairs d) l (list_to_set (variant_id <$> records_of w f)).
Proof. unfold built. by rewrite foldl_app. Qed.

Lemma dict_get_keys {V : Type} (d : list (string * V)) (k : string) :
  is_Some (dict_get d k) ↔ k ∈ d.*1.
Proof.
  induction d as [|[k0 v0] d IH]; simpl.
  - split; [by intros [? ?]|by intros ?%elem_of_nil].
  - case_decide as Hk.
    + subst. split; [intros _; apply list_elem_of_here|by eexists].
    + rewrite IH. split; [apply list_elem_of_further|].
      intros [?|?]%elem_of_cons; [congruence|done].
Qed.

Lemma dict_set_length_present {V : Type} (d : list (string * V)) (k : string) (v : V) :
  is_Some (dict_get d k) → length (dict_set d k v) = length d.
Proof.
  intros Hk%dict_get_keys.
  rewrite <- (length_fmap fst (dict_set d k v)), dict_set_keys.
  rewrite decide_True by done. apply length_fmap.
Qed.

(** Every set an event hands to a renderer is an entry of the dictionary
    the loop built. *)
Lemma analyze_rendered_sets (w : World) (vcf_files : list string)
    (output_file : option string) (e : event) :
  e ∈ trace (analyze_vcf_concordance w vcf_files output_file) →
  rendered_sets e ⊆ (built w (zip vcf_files (label_of <$> vcf_files)) []).*2.
Proof.
  assert (∀ t, forallb is_read_event t = true → e ∈ t → rendered_sets e = []) as Hread.
  { intros t Ht He. rewrite forallb_forall in Ht.
    apply list_elem_of_In, Ht in He. by destruct e. }
  assert (∀ kind, e ∈ trace (save_or_show kind output_file) → rendered_sets e = [])
    as Hsave.
  { intros kind. rewrite save_or_show_spec. cbn [trace fst].
    destruct output_file as [path|]; [destruct (String.eqb path "")|];
      rewrite ?elem_of_cons, ?elem_of_nil; intros H; destruct_or!; by subst. }
  unfold analyze_vcf_concordance.
  destruct (decide (length vcf_files < 2)%nat) as [Hlt|Hge].
  { cbn. intros ->%list_elem_of_singleton. apply list_subseteq_nil. }
  destruct (decide (length vcf_files ≤ 3)%nat) as [Hle|Hgt].
  - destruct vcf_files as [|f0 [|f1 [|f2 [|f3 rest]]]]; simpl in Hge, Hle; try lia.
    + destruct (create_venn_diagram_two w f0 f1 output_file)
        as (s0 & s1 & H0 & H1 & ->).
      cbn [trace fst]. rewrite elem_of_app, !elem_of_cons.
      intros H; destruct_or!; subst; cbn [rendered_sets];
        try apply list_subseteq_nil.
      * rewrite (Hread _ (build_sets_events _ _ _) H). apply list_subseteq_nil.
      * intros s. rewrite !elem_of_cons, elem_of_nil.
        intros Hs; destruct_or!; subst; try done;
          by eapply dict_get_Some_values.
      * rewrite (Hsave _ H). apply list_subseteq_nil.
    + destruct (create_venn_diagram_three w f0 f1 f2 output_file)
        as (s0 & s1 & s2 & H0 & H1 & H2 & ->).
      cbn [trace fst]. rewrite elem_of_app, !elem_of_cons.
      intros H; destruct_or!; subst; cbn [rendered_sets];
        try apply list_subseteq_nil.
      * rewrite (Hread _ (build_sets_events _ _ _) H). apply list_subseteq_nil.
      * intros s. rewrite !elem_of_cons, elem_of_nil.
        intros Hs; destruct_or!; subst; try done;
          by eapply dict_get_Some_values.
      * rewrite (Hsave _ H). apply list_subseteq_nil.
  - rewrite create_upset_plot_spec. cbn [trace fst].
    rewrite elem_of_app, !elem_of_cons.
    intros H; destruct_or!; subst; cbn [rendered_sets];
      try apply list_subseteq_nil; try done.
    + rewrite (Hread _ (build_sets_events _ _ _) H). apply list_subseteq_nil.
    + rewrite (Hsave _ H). apply list_subseteq_nil.
Qed.

(** C10. When two of the input files, at positions [i < j], derive the same
    label, the assignment for the later file finds the label already
    present and overwrites its entry with the later file's set: the
    dictionary does not grow at that step. The finished dictionary has
    strictly fewer entries than there are input files, every set handed to
    a renderer is one of its entries, and so each diagram compares strictly
    fewer distinct sets than files were supplied. *)
Theorem label_collision (w : World) (vcf_files : list string)
    (output_file : option string) (i j : nat) (fi fj : string) :
  (i < j)%nat →
  vcf_files !! i = Some fi →
  vcf_files !! j = Some fj →
  label_of fi = label_of fj →
  let pairs := zip vcf_files (label_of <$> vcf_files) in
  let before := built w (take j pairs) [] in
  let after := built w (take (S j) pairs) [] in
  let variant_sets := built w pairs [] in
  outcome (read_vcf_variants w fj)
    = inr (list_to_set (variant_id <$> records_of w fj))
  ∧ is_Some (dict_get before (label_of fj))
  ∧ dict_get after (label_of fj)
    = Some (list_to_set (variant_id <$> records_of w fj))
  ∧ length after = length before
  ∧ outcome (build_sets w pairs []) = inr variant_sets
  ∧ (length variant_sets < length vcf_files)%nat
  ∧ selected (analyze_vcf_concordance w vcf_files output_file) ≠ None
  ∧ (∀ e, e ∈ trace (analyze_vcf_concordance w vcf_files output_file) →
       rendered_sets e ⊆ variant_sets.*2
       ∧ (length (remove_dups (rendered_sets e)) < length vcf_files)%nat).
Proof.
  intros Hij Hi Hj Hlabel pairs before after variant_sets.
  assert (length pairs = length vcf_files) as Hlen
    by (unfold pairs; rewrite zip_labels; apply length_fmap).
  assert (pairs !! j = Some (fj, label_of fj)) as Hpj
    by (unfold pairs; rewrite zip_labels, list_lookup_fmap, Hj; done).
  assert (pairs !! i = Some (fi, label_of fi)) as Hpi
    by (unfold pairs; rewrite zip_labels, list_lookup_fmap, Hi; done).
  assert (after = dict_set before (label_of fj)
                    (list_to_set (variant_id <$> records_of w fj))) as Hafter.
  { unfold after, before. rewrite (take_S_r _ _ _ Hpj). apply built_snoc. }
  assert (is_Some (dict_get before (label_of fj))) as Hbefore.
  { apply built_get_is_Some. rewrite <- Hlabel.
    apply list_elem_of_fmap. exists (fi, label_of fi). split; [done|].
    apply list_elem_of_lookup. exists i. rewrite lookup_take_lt by done. done. }
  assert (length variant_sets < length vcf_files)%nat as Hshort.
  { rewrite <- Hlen. apply (built_length_collision w pairs i j (label_of fj)).
    - lia.
    - by rewrite list_lookup_fmap, Hpi, <- Hlabel.
    - by rewrite list_lookup_fmap, Hpj. }
  split_and!.
  - by rewrite read_vcf_variants_spec.
  - exact Hbefore.
  - rewrite Hafter, dict_get_set. by rewrite decide_True.
  - rewrite Hafter. by apply dict_set_length_present.
  - apply build_sets_outcome.
  - exact Hshort.
  - rewrite analyze_selected.
    apply lookup_lt_Some in Hj. repeat case_decide; (done || lia).
  - intros e He. apply analyze_rendered_sets in He. fold pairs variant_sets in He.
    split; [exact He|].
    eapply Nat.le_lt_trans; [|exact Hshort].
    rewrite <- (length_fmap snd variant_sets).
    apply submseteq_length, NoDup_submseteq; [apply NoDup_remove_dups|].
    intros s Hs. apply He. by apply elem_of_remove_dups.
Qed.

Lemma label_collision_witness :
  label_of "a/x.vcf" = label_of "b/x.vcf"
  ∧ (length (built demo_world (zip same_label_files (label_of <$> same_label_files)) [])
     < length same_label_files)%nat.
Proof.
  split; [reflexivity|].
  refine (proj1 (proj2 (proj2 (proj2 (proj2 (proj2
    (label_collision demo_world same_label_files None 0 1 "a/x.vcf" "b/x.vcf"
       _ eq_refl eq_refl eq_refl))))))).
  lia.
Defined.

(** ** Combination counts of the UpSet renderer *)

Lemma combinations_length (n : nat) : length (combinations n) = (2 ^ n)%nat.
Proof.
  induction n as [|n IH]; [reflexivity|].
  cbn [combinations]. rewrite length_app, !length_fmap, IH. simpl. lia.
Qed.

Lemma elem_of_combinations (n : nat) (c : list bool) :
  c ∈ combinations n ↔ length c = n.
Proof.
  revert c. induction n as [|n IH]; intros c; cbn [combinations].
  - rewrite list_elem_of_singleton. destruct c; naive_solver.
  - rewrite elem_of_app, !list_elem_of_fmap. split.
    + intros [(c' & -> & Hc')|(c' & -> & Hc')]; simpl; f_equal; by apply IH.
    + destruct c as [|[] c]; [done|..]; intros [= Hlen];
        [left|right]; exists c; by rewrite IH.
Qed.

Lemma combinations_NoDup (n : nat) : NoDup (combinations n).
Proof.
  induction n as [|n IH]; cbn [combinations].
  - apply NoDup_singleton.
  - apply NoDup_app. split_and!.
    + by apply (NoDup_fmap_2 _).
    + intros c (c1 & -> & _)%list_elem_of_fmap (c2 & [=] & _)%list_elem_of_fmap.
    + by apply (NoDup_fmap_2 _).
Qed.

Lemma nonempty_combinations_S (n : nat) :
  nonempty_combinations (S n)
  = (cons true <$> combinations n) ++ (cons false <$> nonempty_combinations n).
Proof.
  unfold nonempty_combinations. cbn [combinations]. rewrite filter_app. f_equal.
  - induction (combinations n) as [|c cs IH]; [done|].
    rewrite fmap_cons, filter_cons_True by apply list_elem_of_here. by rewrite IH.
  - induction (combinations n) as [|c cs IH]; [done|].
    rewrite fmap_cons, !filter_cons. rewrite IH.
    destruct (decide (true ∈ c)) as [Hc|Hc].
    + rewrite decide_True by by apply list_elem_of_further. done.
    + rewrite decide_False; [done|]. by intros [?|?]%elem_of_cons.
Qed.

Lemma nonempty_combinations_length (n : nat) :
  length (nonempty_combinations n) = (2 ^ n - 1)%nat.
Proof.
  induction n as [|n IH]; [reflexivity|].
  rewrite nonempty_combinations_S, length_app, !length_fmap, IH, combinations_length.
  pose proof (Nat.pow_nonzero 2 n). simpl. lia.
Qed.

Lemma membership_length (contents : list (string * gset variant_key)) (x : variant_key) :
  length (membership contents x) = length contents.
Proof. apply length_fmap. Qed.

Lemma membership_true (contents : list (string * gset variant_key)) (x : variant_key) :
  true ∈ membership contents x ↔ x ∈ union_all contents.
Proof.
  unfold membership, union_all. rewrite list_elem_of_fmap, elem_of_union_list. split.
  - intros ([l s] & Hb & Hin). symmetry in Hb. apply bool_decide_eq_true in Hb.
    exists s. split; [|done]. apply list_elem_of_fmap. by exists (l, s).
  - intros (s & ([l s'] & -> & Hin)%list_elem_of_fmap & Hx).
    exists (l, s'). split; [|done]. symmetry. by apply bool_decide_eq_true.
Qed.

Lemma membership_nonempty_combination (contents : list (string * gset variant_key))
    (x : variant_key) :
  x ∈ union_all contents →
  membership contents x ∈ nonempty_combinations (length contents).
Proof.
  intros Hx. apply list_elem_of_filter. split; [by apply membership_true|].
  apply elem_of_combinations, membership_length.
Qed.

Section Counting.
Context {C : Type} `{EqDecision C} (pattern : variant_key → C).

Lemma sum_list_fmap_add {A : Type} (f g : A → nat) (l : list A) :
  sum_list ((λ a, f a + g a)%nat <$> l) = (sum_list (f <$> l) + sum_list (g <$> l))%nat.
Proof. induction l as [|a l IH]; [done|]. rewrite !fmap_cons. simpl. lia. Qed.

Lemma sum_list_indicator (c0 : C) (cs : list C) :
  NoDup cs →
  sum_list ((λ c, if decide (c0 = c) then 1 else 0)%nat <$> cs)
  = if decide (c0 ∈ cs) then 1%nat else 0%nat.
Proof.
  induction 1 as [|c cs Hc _ IH]; [done|].
  rewrite fmap_cons. cbn [sum_list sum_list_with]. rewrite IH.
  destruct (decide (c0 = c)) as [->|Hne].
  - rewrite decide_False by done.
    rewrite decide_True by apply list_elem_of_here. done.
  - destruct (decide (c0 ∈ cs)) as [Hin|Hout].
    + rewrite decide_True by by apply list_elem_of_further. done.
    + rewrite decide_False; [done|]. by intros [?|?]%elem_of_cons.
Qed.

Lemma size_filter_insert (P : variant_key → Prop) `{!∀ x, Decision (P x)}
    (x : variant_key) (X : gset variant_key) :
  x ∉ X →
  size (filter P ({[x]} ∪ X))
  = ((if decide (P x) then 1 else 0) + size (filter P X))%nat.
Proof.
  intros Hx. rewrite filter_union_L, size_union; [| |apply _].
  - destruct (decide (P x)).
    + rewrite filter_singleton_True_L; [|first [done|apply _]..].
      by rewrite size_singleton.
    + rewrite filter_singleton_False_L; [|first [done|apply _]..].
      by rewrite size_empty.
  - intros y [_ Hy]%elem_of_filter [_ Hy']%elem_of_filter.
    apply elem_of_singleton in Hy as ->. done.
Qed.

(** Classes of a partition: when every element's pattern is listed once,
    the class sizes add up to the size of the set. *)
Lemma sum_pattern_counts (cs : list C) (X : gset variant_key) :
  NoDup cs →
  (∀ x, x ∈ X → pattern x ∈ cs) →
  sum_list ((λ c, size (filter (λ x, pattern x = c) X)) <$> cs) = size X.
Proof.
  intros Hcs. induction X as [|x X Hx IH] using set_ind_L; intros Hin.
  - rewrite size_empty.
    rewrite (list_fmap_ext _ (λ _, 0%nat) cs)
      by (intros; rewrite filter_empty_L; [apply size_empty|apply _]).
    rewrite sum_list_fmap_const. lia.
  - rewrite (list_fmap_ext _
               (λ c, (if decide (pattern x = c) then 1 else 0)
                     + size (filter (λ y, pattern y = c) X))%nat cs)
      by (intros; by apply size_filter_insert).
    rewrite sum_list_fmap_add, sum_list_indicator, IH by (done || set_solver).
    rewrite decide_True by (apply Hin; set_solver).
    rewrite size_union, size_singleton by set_solver. done.
Qed.
End Counting.

(** C5. The UpSet renderer counts, for each of the [2^N - 1] non-empty
    membership combinations of the [N] labelled sets, the identities whose
    membership pattern is exactly that combination; every identity of the
    union is counted under one combination, so the counts add up to the
    size of the union. This holds for every [N], in particular [N >= 4]. *)
Theorem upset_counts_sum (contents : list (string * gset variant_key)) :
  length (upset_counts contents) = (2 ^ length contents - 1)%nat
  ∧ (∀ c n, (c, n) ∈ upset_counts contents ↔
       c ∈ nonempty_combinations (length contents)
       ∧ n = size (filter (λ x, membership contents x = c) (union_all contents)))
  ∧ sum_list (snd <$> upset_counts contents) = size (union_all contents).
Proof.
  unfold upset_counts. split_and!.
  - by rewrite length_fmap, nonempty_combinations_length.
  - intros c n. rewrite list_elem_of_fmap. unfold combination_count. split.
    + by intros (c' & [= -> ->] & Hc').
    + intros [Hc ->]. by exists c.
  - rewrite <- list_fmap_compose.
    apply (sum_pattern_counts (membership contents)).
    + apply NoDup_filter, combinations_NoDup.
    + apply membership_nonempty_combination.
Qed.

(** ** The reader: what a read returns *)

Lemma size_list_to_set_le (l : list variant_key) :
  (size (list_to_set l : gset variant_key) ≤ length l)%nat.
Proof.
  induction l as [|k l IH].
  - done.
  - cbn [list_to_set length foldr]. rewrite size_union_alt, size_singleton.
    assert (size (list_to_set l ∖ {[k]} : gset variant_key)
            ≤ size (list_to_set l : gset variant_key))%nat as H
      by (apply subseteq_size, subseteq_difference_l; done).
    lia.
Qed.

(** X1. [read_vcf_variants] never raises. The set it returns holds exactly
    the identities of the records the reader delivered (all of them when
    the file reads to its end, those before the failure otherwise), so it
    has at most one member per record, and exactly one per record when the
    identities are pairwise different. It prints one line on the error
    stream when the read failed and none otherwise. *)
Theorem read_returns_identities (w : World) (vcf_file : string) :
  ∃ variants,
    outcome (read_vcf_variants w vcf_file) = inr variants
    ∧ (∀ k, k ∈ variants ↔ ∃ v, v ∈ records_of w vcf_file ∧ variant_id v = k)
    ∧ (size variants ≤ length (records_of w vcf_file))%nat
    ∧ (NoDup (variant_id <$> records_of w vcf_file) →
       size variants = length (records_of w vcf_file))
    ∧ trace (read_vcf_variants w vcf_file) = read_events w vcf_file
    ∧ length (filter (λ e, is_stderr e = true) (read_events w vcf_file))
      = match read_failure w vcf_file with Some _ => 1%nat | None => 0%nat end.
Proof.
  exists (ids_of w vcf_file). rewrite read_vcf_variants_spec. unfold ids_of.
  split_and!.
  - reflexivity.
  - intros k. rewrite elem_of_list_to_set, list_elem_of_fmap.
    split; [intros (v & -> & Hv)|intros (v & Hv & <-)]; eauto.
  - etrans; [apply size_list_to_set_le|]. by rewrite length_fmap.
  - intros Hnd. rewrite size_list_to_set by done. apply length_fmap.
  - reflexivity.
  - unfold read_events. by destruct (read_failure w vcf_file).
Qed.

(** ** The scanner: what it collects *)

Lemma scan_tokens_files (files rest vcf_files : list string) (output_file : option string) :
  Forall (λ t, recognized t = true) files →
  scan_tokens (files ++ rest) vcf_files output_file
  = scan_tokens rest (vcf_files ++ files) output_file.
Proof.
  intros Hfiles. revert vcf_files.
  induction Hfiles as [|f files Hf _ IH]; intros vcf_files.
  - by rewrite app_nil_r.
  - cbn [app scan_tokens]. fold (recognized f). rewrite Hf, IH.
    by rewrite <- app_assoc.
Qed.

Lemma scan_tokens_flag (path : string) (rest vcf_files : list string)
    (output_file : option string) :
  scan_tokens ("--output" :: path :: rest) vcf_files output_file
  = scan_tokens rest vcf_files (Some path).
Proof. reflexivity. Qed.

Lemma scan_tokens_no_flag (tokens vcf_files : list string) (output_file : option string) :
  "--output" ∉ tokens →
  scan_tokens tokens vcf_files output_file
  = inr (vcf_files ++ filter (λ t, recognized t = true) tokens, output_file).
Proof.
  revert vcf_files. induction tokens as [|t tokens IH]; intros vcf_files Hno.
  - by rewrite app_nil_r.
  - apply not_elem_of_cons in Hno as [Ht Hno].
    cbn [scan_tokens]. fold (recognized t). rewrite filter_cons.
    destruct (recognized t) eqn:Hrec.
    + rewrite decide_True by done. rewrite IH by done. by rewrite <- app_assoc.
    + rewrite decide_False by done.
      destruct (String.eqb t "--output") eqn:E; [|by apply IH].
      apply String.eqb_eq in E. congruence.
Qed.

(** X2. On a command line without [--output] the scanner returns the
    tokens after the program name that end in [.vcf] or [.vcf.gz], in the
    order given, and no output path; every other token is skipped. *)
Theorem scan_without_flag (argv : list string) :
  "--output" ∉ drop 1 argv →
  scan_loop argv 1 [] None
  = inr (filter (λ t, recognized t = true) (drop 1 argv), None).
Proof. intros Hno. rewrite scan_loop_tokens. by apply scan_tokens_no_flag. Qed.

Lemma scan_without_flag_witness :
  ("--output" ∉ drop 1 ["vcf_con.py"; "a.vcf"; "notes.txt"; "b.vcf.gz"])
  ∧ scan_loop ["vcf_con.py"; "a.vcf"; "notes.txt"; "b.vcf.gz"] 1 [] None
    = inr (["a.vcf"; "b.vcf.gz"], None).
Proof.
  assert ("--output" ∉ drop 1 ["vcf_con.py"; "a.vcf"; "notes.txt"; "b.vcf.gz"]) as Hno.
  { compute_done. }
  split; [exact Hno|].
  exact (scan_without_flag ["vcf_con.py"; "a.vcf"; "notes.txt"; "b.vcf.gz"] Hno).
Defined.

(** X3. The documented call shape: recognized files before and after one
    [--output path] pair are all collected, in order, and [path] becomes the
    output path whatever it looks like (a name ending in [.vcf] after
    [--output] is the output path, not an input). *)
Theorem scan_documented_usage (prog path : string) (files1 files2 : list string) :
  Forall (λ t, recognized t = true) files1 →
  Forall (λ t, recognized t = true) files2 →
  scan_loop (prog :: files1 ++ "--output" :: path :: files2) 1 [] None
  = inr (files1 ++ files2, Some path).
Proof.
  intros H1 H2. rewrite scan_loop_tokens.
  change (drop 1 (prog :: ?l)) with l.
  rewrite scan_tokens_files, scan_tokens_flag by done.
  rewrite <- (app_nil_r files2) at 1.
  rewrite scan_tokens_files by done. reflexivity.
Qed.

Lemma scan_documented_usage_witness :
  scan_loop ("vcf_con.py" :: ["a.vcf"] ++ "--output" :: "b.vcf" :: ["c.vcf.gz"]) 1 [] None
  = inr (["a.vcf"] ++ ["c.vcf.gz"], Some "b.vcf").
Proof.
  apply (scan_documented_usage "vcf_con.py" "b.vcf" ["a.vcf"] ["c.vcf.gz"]).
  - repeat constructor.
  - repeat constructor.
Defined.

(** X4. When [--output] is given twice the later value wins and the
    earlier one is dropped without a message. *)
Theorem scan_last_output_wins (prog path1 path2 : string) (files0 files1 files2 : list string) :
  Forall (λ t, recognized t = true) files0 →
  Forall (λ t, recognized t = true) files1 →
  Forall (λ t, recognized t = true) files2 →
  scan_loop (prog :: files0 ++ "--output" :: path1 :: files1
                  ++ "--output" :: path2 :: files2) 1 [] None
  = inr (files0 ++ files1 ++ files2, Some path2).
Proof.
  intros H0 H1 H2. rewrite scan_loop_tokens.
  change (drop 1 (prog :: ?l)) with l.
  rewrite scan_tokens_files, scan_tokens_flag by done.
  rewrite scan_tokens_files, scan_tokens_flag by done.
  rewrite <- (app_nil_r files2) at 1.
  rewrite scan_tokens_files by done. cbn [scan_tokens app].
  by rewrite <- app_assoc.
Qed.

Lemma scan_last_output_wins_witness :
  scan_loop ("vcf_con.py" :: ["a.vcf"] ++ "--output" :: "one.png" :: ["b.vcf"]
                  ++ "--output" :: "two.png" :: []) 1 [] None
  = inr (["a.vcf"] ++ ["b.vcf"] ++ [], Some "two.png").
Proof.
  apply (scan_last_output_wins "vcf_con.py" "one.png" "two.png" ["a.vcf"] ["b.vcf"] []);
    repeat constructor.
Defined.

Lemma scan_tokens_collects (tokens : list string) :
  ∀ vcf_files output_file files out,
    scan_tokens tokens vcf_files output_file = inr (files, out) →
    ∃ new,
      files = vcf_files ++ new
      ∧ new `sublist_of` tokens
      ∧ Forall (λ t, recognized t = true) new
      ∧ ((out = output_file ∧ "--output" ∉ tokens)
         ∨ ∃ front path back,
             tokens = front ++ "--output" :: path :: back ∧ out = Some path).
Proof.
  induction tokens as [|arg|arg path rest IH1 IH2] using scan_tokens_ind2;
    intros vcf_files output_file files out.
  - intros [= <- <-]. exists []. rewrite app_nil_r. split_and!; try done.
    left. split; [done|apply not_elem_of_nil].
  - cbn [scan_tokens]. fold (recognized arg). fold (is_output arg).
    destruct (recognized arg) eqn:Hrec.
    + intros [= <- <-]. exists [arg]. split_and!; try done.
      * by apply Forall_singleton.
      * left. split; [done|]. apply not_elem_of_cons. split; [|apply not_elem_of_nil].
        intros <-. by vm_compute in Hrec.
    + destruct (is_output arg) eqn:Hout; [done|].
      intros [= <- <-]. exists []. rewrite app_nil_r. split_and!; try done.
      * apply sublist_nil_l.
      * left. split; [done|]. apply not_elem_of_cons. split; [|apply not_elem_of_nil].
        intros <-. done.
  - cbn [scan_tokens]. fold (recognized arg). fold (is_output arg).
    destruct (recognized arg) eqn:Hrec.
    + intros (new & -> & Hsub & Hall & Hout)%IH1.
      exists (arg :: new). split_and!.
      * by rewrite <- app_assoc.
      * by apply sublist_skip.
      * by apply Forall_cons.
      * destruct Hout as [[-> Hno]|(front & p & back & Heq & ->)].
        -- left. split; [done|]. apply not_elem_of_cons. split; [|done].
           intros <-. by vm_compute in Hrec.
        -- right. exists (arg :: front), p, back. by rewrite Heq.
    + destruct (is_output arg) eqn:Hout.
      * apply String.eqb_eq in Hout as ->.
        intros (new & -> & Hsub & Hall & Hout)%IH2.
        exists new. split_and!; try done.
        -- by do 2 apply sublist_cons.
        -- right. destruct Hout as [[-> _]|(front & p & back & -> & ->)].
           ++ by exists [], path, rest.
           ++ by exists ("--output" :: path :: front), p, back.
      * intros (new & -> & Hsub & Hall & Hflag)%IH1.
        exists new. split_and!; try done.
        -- by apply sublist_cons.
        -- destruct Hflag as [[-> Hno]|(front & p & back & Heq & ->)].
           ++ left. split; [done|]. apply not_elem_of_cons. split; [|done].
              intros <-. done.
           ++ right. exists (arg :: front), p, back. by rewrite Heq.
Qed.

(** X5. Whenever the scan completes, the files it collected all end in
    [.vcf] or [.vcf.gz] and appear on the command line in the same order
    (none is invented, duplicated or reordered); the output path is either
    absent, and then no [--output] token was on the command line, or it is
    a token that directly follows an [--output]. *)
Theorem scan_collects_recognized (argv files : list string) (out : option string) :
  scan_loop argv 1 [] None = inr (files, out) →
  files `sublist_of` drop 1 argv
  ∧ Forall (λ t, recognized t = true) files
  ∧ match out with
    | None => "--output" ∉ drop 1 argv
    | Some path => ∃ front back, drop 1 argv = front ++ "--output" :: path :: back
    end.
Proof.
  rewrite scan_loop_tokens.
  intros (new & -> & Hsub & Hall & Hout)%scan_tokens_collects.
  split_and!; [done..|].
  destruct Hout as [[-> Hno]|(front & p & back & -> & ->)]; [done|by eauto].
Qed.

Lemma scan_collects_recognized_witness :
  ["a.vcf"; "b.vcf.gz"] `sublist_of` drop 1 ["vcf_con.py"; "a.vcf"; "--output"; "x.vcf"; "b.vcf.gz"]
  ∧ Forall (λ t, recognized t = true) ["a.vcf"; "b.vcf.gz"]
  ∧ ∃ front back,
      drop 1 ["vcf_con.py"; "a.vcf"; "--output"; "x.vcf"; "b.vcf.gz"]
      = front ++ "--output" :: "x.vcf" :: back.
Proof.
  exact (scan_collects_recognized
           ["vcf_con.py"; "a.vcf"; "--output"; "x.vcf"; "b.vcf.gz"]
           ["a.vcf"; "b.vcf.gz"] (Some "x.vcf") eq_refl).
Defined.

(** ** The whole run *)

Lemma build_sets_trace (w : World) (pairs : list (string * string))
    (d : list (string * gset variant_key)) :
  trace (build_sets w pairs d) = flat_map (read_events w) pairs.*1.
Proof.
  revert d. induction pairs as [|[f l] pairs IH]; intros d; [reflexivity|].
  rewrite build_sets_trace_cons, IH, read_vcf_variants_spec. reflexivity.
Qed.

Lemma zip_labels_fst (vcf_files : list string) :
  (zip vcf_files (label_of <$> vcf_files)).*1 = vcf_files.
Proof. rewrite zip_labels, <- list_fmap_compose. apply list_fmap_id. Qed.

Lemma analyze_trace_full (w : World) (vcf_files : list string)
    (output_file : option string) :
  (2 ≤ length vcf_files)%nat →
  analyze_vcf_concordance w vcf_files output_file
  = (flat_map (read_events w) vcf_files
       ++ (if decide (length vcf_files ≤ 3)%nat
           then [Figure 10 8; diagram_event w vcf_files; Title figure_title]
           else [Figure 12 8; diagram_event w vcf_files; Suptitle figure_title])
       ++ trace (save_or_show
                   (if decide (length vcf_files ≤ 3)%nat
                    then "Venn diagram" else "UpSet plot") output_file),
     inr ()).
Proof.
  intros Hlen. unfold analyze_vcf_concordance, diagram_event.
  rewrite decide_False by lia.
  destruct (decide (length vcf_files ≤ 3)%nat) as [Hle|Hgt].
  - destruct vcf_files as [|f0 [|f1 [|f2 [|f3 rest]]]]; simpl in Hlen, Hle; try lia.
    + destruct (create_venn_diagram_two w f0 f1 output_file) as (s0 & s1 & H0 & H1 & ->).
      rewrite build_sets_trace. cbn [fmap list_fmap fst flat_map length].
      rewrite decide_True by done.
      change (zip [f0; f1] [label_of f0; label_of f1])
        with [(f0, label_of f0); (f1, label_of f1)].
      rewrite H0, H1. reflexivity.
    + destruct (create_venn_diagram_three w f0 f1 f2 output_file)
        as (s0 & s1 & s2 & H0 & H1 & H2 & ->).
      rewrite build_sets_trace. cbn [fmap list_fmap fst flat_map length].
      rewrite decide_False by done. rewrite decide_True by done.
      change (zip [f0; f1; f2] [label_of f0; label_of f1; label_of f2])
        with [(f0, label_of f0); (f1, label_of f1); (f2, label_of f2)].
      rewrite H0, H1, H2. reflexivity.
  - rewrite create_upset_plot_spec, build_sets_trace, zip_labels_fst.
    rewrite !decide_False by lia. reflexivity.
Qed.

(** X6. The whole effect sequence of a run that draws. Once the scan has
    returned at least two files, the script reads the files one after the
    other in command-line order (each open directly followed by that
    file's diagnostic, if it failed), then creates one figure (10x8 for
    the Venn family, 12x8 for UpSet), makes one diagram call, sets the
    title, and finally saves or shows; it ends without an exception. *)
Theorem run_effect_sequence (w : World) (argv vcf_files : list string)
    (output_file : option string) :
  scan_loop argv 1 [] None = inr (vcf_files, output_file) →
  (2 ≤ length vcf_files)%nat →
  main w argv
  = (flat_map (read_events w) vcf_files
       ++ (if decide (length vcf_files ≤ 3)%nat
           then [Figure 10 8; diagram_event w vcf_files; Title figure_title]
           else [Figure 12 8; diagram_event w vcf_files; Suptitle figure_title])
       ++ trace (save_or_show
                   (if decide (length vcf_files ≤ 3)%nat
                    then "Venn diagram" else "UpSet plot")
                   (resolve_output w output_file)),
     inr ()).
Proof.
  intros Hscan Hlen. rewrite (main_scanned w _ _ _ Hscan Hlen).
  by apply analyze_trace_full.
Qed.

Lemma run_effect_sequence_witness :
  main demo_world argv_dir_output
  = (flat_map (read_events demo_world) ["a/x.vcf"; "bad.vcf"]
       ++ [Figure 10 8; diagram_event demo_world ["a/x.vcf"; "bad.vcf"];
           Title figure_title]
       ++ trace (save_or_show "Venn diagram" (resolve_output demo_world (Some "out"))),
     inr ()).
Proof.
  refine (run_effect_sequence demo_world argv_dir_output ["a/x.vcf"; "bad.vcf"]
            (Some "out") eq_refl _).
  simpl. lia.
Defined.

Lemma read_events_no (P : event → bool) (w : World) (vcf_files : list string) :
  (∀ e, is_read_event e = true → P e = false) →
  existsb P (flat_map (read_events w) vcf_files) = false.
Proof.
  intros HP. induction vcf_files as [|f fs IH]; [done|].
  cbn [flat_map]. rewrite existsb_app, IH, orb_false_r.
  unfold read_events. destruct (read_failure w f); simpl; by rewrite !HP.
Qed.

(** X7. Without an [--output] option a run that draws writes no file and
    prints nothing on standard output; its last action is to show the
    figure. *)
Theorem no_output_option_shows (w : World) (argv vcf_files : list string) :
  scan_loop argv 1 [] None = inr (vcf_files, None) →
  (2 ≤ length vcf_files)%nat →
  last (trace (main w argv)) = Some Show
  ∧ existsb is_savefig (trace (main w argv)) = false
  ∧ existsb is_stdout (trace (main w argv)) = false.
Proof.
  intros Hscan Hlen.
  rewrite (main_scanned w _ _ _ Hscan Hlen), analyze_trace_full by done.
  cbn [trace fst resolve_output save_or_show emit].
  split_and!.
  - rewrite !app_assoc. apply last_snoc.
  - rewrite !existsb_app, (read_events_no is_savefig) by by_event.
    unfold diagram_event. by repeat case_decide.
  - rewrite !existsb_app, (read_events_no is_stdout) by by_event.
    unfold diagram_event. by repeat case_decide.
Qed.

Lemma no_output_option_shows_witness :
  last (trace (main demo_world argv_four)) = Some Show
  ∧ existsb is_savefig (trace (main demo_world argv_four)) = false
  ∧ existsb is_stdout (trace (main demo_world argv_four)) = false.
Proof.
  refine (no_output_option_shows demo_world argv_four four_files eq_refl _).
  simpl. lia.
Defined.

(** ** Files with pairwise different labels *)

Lemma dict_set_fresh {V : Type} (d : list (string * V)) (k : string) (v : V) :
  k ∉ d.*1 → dict_set d k v = d ++ [(k, v)].
Proof.
  induction d as [|[k0 v0] d IH]; [done|].
  rewrite fmap_cons. cbn [fst]. intros [Hne Hk]%not_elem_of_cons.
  cbn [dict_set]. rewrite decide_False by done. by rewrite IH.
Qed.

Lemma built_distinct (w : World) (pairs : list (string * string))
    (d : list (string * gset variant_key)) :
  NoDup (d.*1 ++ pairs.*2) →
  built w pairs d = d ++ ((λ p, (p.2, ids_of w p.1)) <$> pairs).
Proof.
  revert d. induction pairs as [|[f l] pairs IH]; intros d Hnd.
  - by rewrite app_nil_r.
  - change (built w ((f, l) :: pairs) d)
      with (built w pairs (dict_set d l (ids_of w f))).
    rewrite fmap_cons in Hnd. cbn [snd] in Hnd.
    assert (l ∉ d.*1) as Hl.
    { apply NoDup_app in Hnd as (_ & Hdisj & _). intros Hin.
      apply (Hdisj l Hin). apply list_elem_of_here. }
    rewrite dict_set_fresh by done. rewrite IH.
    + by rewrite <- app_assoc.
    + rewrite fmap_app. cbn [fmap list_fmap fst]. by rewrite <- app_assoc.
Qed.

Lemma dict_get_by_label (w : World) (vcf_files : list string) (f : string) :
  NoDup (label_of <$> vcf_files) → f ∈ vcf_files →
  dict_get ((λ f, (label_of f, ids_of w f)) <$> vcf_files) (label_of f)
  = Some (ids_of w f).
Proof.
  induction vcf_files as [|f0 fs IH]; intros Hnd Hin.
  - by apply elem_of_nil in Hin.
  - rewrite fmap_cons in Hnd. apply NoDup_cons in Hnd as [Hl0 Hnd].
    rewrite fmap_cons. cbn [dict_get].
    apply elem_of_cons in Hin as [->|Hin].
    + by rewrite decide_True.
    + rewrite decide_False; [by apply IH|].
      intros Heq. apply Hl0. rewrite Heq. apply list_elem_of_fmap. by exists f.
Qed.

(** X8. When the labels of the input files are pairwise different, the
    dictionary has one entry per file, in command-line order, holding that
    file's own set, and the single diagram call of the run receives exactly
    these sets in that order: [venn2]/[venn3] get the files' sets with the
    labels as [set_labels], the UpSet path gets the label-to-set pairs. *)
Theorem distinct_labels_diagram (w : World) (vcf_files : list string)
    (output_file : option string) :
  NoDup (label_of <$> vcf_files) →
  (2 ≤ length vcf_files)%nat →
  outcome (build_sets w (zip vcf_files (label_of <$> vcf_files)) [])
  = inr ((λ f, (label_of f, ids_of w f)) <$> vcf_files)
  ∧ filter (λ e, is_diagram e = true)
           (trace (analyze_vcf_concordance w vcf_files output_file))
    = [if decide (length vcf_files = 2%nat)
       then Venn2 (ids_of w <$> vcf_files) (label_of <$> vcf_files)
       else if decide (length vcf_files = 3%nat)
       then Venn3 (ids_of w <$> vcf_files) (label_of <$> vcf_files)
       else UpsetPlot ((λ f, (label_of f, ids_of w f)) <$> vcf_files)].
Proof.
  intros Hnd Hlen.
  assert (built w (zip vcf_files (label_of <$> vcf_files)) []
          = (λ f, (label_of f, ids_of w f)) <$> vcf_files) as Hbuilt.
  { rewrite built_distinct by (by rewrite zip_labels_snd).
    rewrite zip_labels, <- list_fmap_compose. reflexivity. }
  split; [by rewrite build_sets_outcome, Hbuilt|].
  rewrite analyze_trace_full by done. cbn [trace fst].
  assert (∀ t, existsb is_diagram t = false →
               filter (λ e, is_diagram e = true) t = []) as Hnone.
  { intros t. induction t as [|e t IH]; [done|]. cbn [existsb].
    intros [He Ht]%orb_false_iff. rewrite filter_cons_False by by rewrite He.
    by apply IH. }
  rewrite filter_app, (Hnone (flat_map _ _)) by (apply read_events_no; by_event).
  rewrite filter_app, (Hnone (trace _))
    by (apply save_or_show_no; done).
  rewrite app_nil_r. cbn [app].
  assert (diagram_event w vcf_files
          = if decide (length vcf_files = 2%nat)
            then Venn2 (ids_of w <$> vcf_files) (label_of <$> vcf_files)
            else if decide (length vcf_files = 3%nat)
            then Venn3 (ids_of w <$> vcf_files) (label_of <$> vcf_files)
            else UpsetPlot ((λ f, (label_of f, ids_of w f)) <$> vcf_files)) as ->.
  { unfold diagram_event. rewrite Hbuilt.
    assert ((λ l, default ∅ (dict_get ((λ f, (label_of f, ids_of w f)) <$> vcf_files) l))
              <$> (label_of <$> vcf_files) = ids_of w <$> vcf_files) as ->; [|done].
    rewrite <- list_fmap_compose. apply list_fmap_ext. intros i f Hf. unfold compose.
    rewrite dict_get_by_label; [done..|]. by eapply list_elem_of_lookup_2. }
  by repeat case_decide.
Qed.

Lemma distinct_labels_diagram_witness :
  filter (λ e, is_diagram e = true)
         (trace (analyze_vcf_concordance demo_world ["a/x.vcf"; "bad.vcf"] None))
  = [Venn2 (ids_of demo_world <$> ["a/x.vcf"; "bad.vcf"])
           (label_of <$> ["a/x.vcf"; "bad.vcf"])].
Proof.
  refine (proj2 (distinct_labels_diagram demo_world ["a/x.vcf"; "bad.vcf"] None _ _)).
  - compute_done.
  - simpl. lia.
Defined.

Lemma scan_index_outcomes (argv : list string) :
  scan_loop argv 1 [] None = inl IndexError
  ∨ ∃ files out, scan_loop argv 1 [] None = inr (files, out).
Proof.
  rewrite scan_loop_tokens.
  pose proof (scan_tokens_result (drop 1 argv) [] None) as Hres.
  destruct (Nat.odd (trailing_outputs (drop 1 argv))); [by left|by right].
Qed.

(** ** The Venn renderer called directly *)

(** X9. Called directly with a number of files other than 2 or 3 (zero or
    one included), [create_venn_diagram] has already read every file and
    opened a 10x8 figure when it prints its note; the UpSet renderer it
    then calls reads every file a second time and opens a second figure,
    so each file is opened twice and the first figure is never drawn on. *)
Theorem venn_direct_call_reads_twice (w : World) (vcf_files : list string)
    (output_file : option string) :
  length vcf_files ≠ 2%nat →
  length vcf_files ≠ 3%nat →
  create_venn_diagram w vcf_files output_file
  = (flat_map (read_events w) vcf_files
       ++ [Figure 10 8; Stdout venn_note]
       ++ flat_map (read_events w) vcf_files
       ++ [Figure 12 8;
           UpsetPlot (built w (zip vcf_files (label_of <$> vcf_files)) []);
           Suptitle figure_title]
       ++ trace (save_or_show "UpSet plot" output_file),
     inr ())
  ∧ filter (λ e, is_open e = true) (trace (create_venn_diagram w vcf_files output_file))
    = OpenVCF <$> (vcf_files ++ vcf_files)
  ∧ length (filter (λ e, is_figure e = true)
                   (trace (create_venn_diagram w vcf_files output_file))) = 2%nat.
Proof.
  intros H2 H3.
  assert (create_venn_diagram w vcf_files output_file
          = (flat_map (read_events w) vcf_files
               ++ [Figure 10 8; Stdout venn_note]
               ++ flat_map (read_events w) vcf_files
               ++ [Figure 12 8;
                   UpsetPlot (built w (zip vcf_files (label_of <$> vcf_files)) []);
                   Suptitle figure_title]
               ++ trace (save_or_show "UpSet plot" output_file),
             inr ())) as Heq.
  { rewrite create_venn_diagram_other by done.
    rewrite create_upset_plot_spec. cbn [trace fst].
    rewrite !build_sets_trace, zip_labels_fst. reflexivity. }
  assert (∀ fs, filter (λ e, is_open e = true) (flat_map (read_events w) fs)
                = OpenVCF <$> fs) as Hopens.
  { intros fs. induction fs as [|f fs IH]; [done|].
    cbn [flat_map]. rewrite filter_app, IH. unfold read_events.
    rewrite filter_cons_True by done. by destruct (read_failure w f). }
  assert (∀ fs, filter (λ e, is_figure e = true) (flat_map (read_events w) fs) = [])
    as Hfigs.
  { intros fs. induction fs as [|f fs IH]; [done|].
    cbn [flat_map]. rewrite filter_app, IH. unfold read_events.
    rewrite filter_cons_False by done. by destruct (read_failure w f). }
  assert (filter (λ e, is_open e = true) (trace (save_or_show "UpSet plot" output_file)) = []
          ∧ filter (λ e, is_figure e = true)
                   (trace (save_or_show "UpSet plot" output_file)) = []) as [Hso Hsf].
  { rewrite save_or_show_spec. cbn [trace fst].
    destruct output_file as [path|]; [destruct (String.eqb path "")|]; by split. }
  split_and!; [exact Heq|..]; rewrite Heq; cbn [trace fst].
  - rewrite !filter_app, !Hopens, Hso, fmap_app. cbn. by rewrite !app_nil_r.
  - rewrite !filter_app, !Hfigs, Hsf. reflexivity.
Qed.

Lemma venn_direct_call_reads_twice_witness :
  filter (λ e, is_open e = true) (trace (create_venn_diagram demo_world four_files None))
  = OpenVCF <$> (four_files ++ four_files).
Proof.
  refine (proj1 (proj2 (venn_direct_call_reads_twice demo_world four_files None _ _)));
    simpl; lia.
Defined.

(** ** Exit status *)

(** X10. The script ends with status 0 or 1. It ends with 0 exactly when
    the scan completes with at least two recognized files, and in every
    other case (too few arguments, too few recognized files, a trailing
    [--output]) it has opened no VCF file and made no plotting call. *)
Theorem main_failure_is_clean (w : World) (argv : list string) :
  (exit_status (main w argv) = 0 ∨ exit_status (main w argv) = 1)
  ∧ (exit_status (main w argv) = 0
     ↔ ∃ files out,
         scan_loop argv 1 [] None = inr (files, out) ∧ (2 ≤ length files)%nat)
  ∧ (exit_status (main w argv) = 0
     ∨ (existsb is_open (trace (main w argv)) = false
        ∧ existsb is_render (trace (main w argv)) = false)).
Proof.
  destruct (scan_index_outcomes argv) as [Hscan|(files & out & Hscan)].
  - assert (main w argv = ([Stdout usage], inl (SystemExit 1))
            ∨ main w argv = ([], inl IndexError)) as Hmain.
    { unfold main. case_decide; [by left|]. rewrite Hscan. by right. }
    split_and!.
    + right. by destruct Hmain as [-> | ->].
    + split.
      * by destruct Hmain as [-> | ->].
      * intros (? & ? & Heq & _). congruence.
    + right. by destruct Hmain as [-> | ->].
  - destruct (decide (length files < 2)%nat) as [Hlt|Hge].
    + rewrite (main_too_few w _ _ _ Hscan Hlt). split_and!.
      * by right.
      * split; [done|]. intros (files' & out' & Heq & Hlen).
        rewrite Hscan in Heq. injection Heq as <- <-. lia.
      * right. by case_decide.
    + rewrite (main_scanned w _ _ _ Hscan) by lia.
      assert (exit_status (analyze_vcf_concordance w files (resolve_output w out)) = 0)
        as Hzero by (unfold exit_status; by rewrite analyze_outcome).
      split_and!; [by left| |by left].
      split; [|done]. intros _. exists files, out. split; [done|lia].
Qed.

(** X11. The program name is never scanned: two command lines that differ
    only in [argv[0]] behave the same, even when the program name ends in
    [.vcf] or is [--output]. *)
Theorem main_ignores_program_name (w : World) (prog prog' : string) (args : list string) :
  main w (prog :: args) = main w (prog' :: args).
Proof. unfold main. by rewrite !scan_loop_tokens. Qed.

(** ** Labels and recognized names *)

Lemma last_char_split (c : ascii) (p : string) :
  has_char c p = true →
  ∃ front back, p = front +:+ String c back ∧ has_char c back = false.
Proof.
  induction p as [|a p IH]; [done|]. simpl.
  destruct (has_char c p) eqn:Hp.
  - intros _. destruct (IH eq_refl) as (front & back & -> & Hback).
    by exists (String a front), back.
  - rewrite orb_false_r. intros ->%Ascii.eqb_eq. by exists "", p.
Qed.

Lemma basename_no_slash (p : string) :
  has_char "/" p = false → Py.basename p = p.
Proof.
  intros Hp. unfold Py.basename, Py.rfind. by rewrite rfind_go_absent.
Qed.

Lemma basename_has_no_slash (p : string) : has_char "/" (Py.basename p) = false.
Proof.
  destruct (has_char "/" p) eqn:Hp.
  - apply last_char_split in Hp as (front & back & -> & Hback).
    change (front +:+ String "/" back) with (front +:+ "/" +:+ back).
    by rewrite basename_in_directory.
  - by rewrite basename_no_slash.
Qed.

Lemma has_char_replace_go (c : ascii) (skip : nat) (s : string) :
  has_char c s = false → has_char c (Py.replace_go ".vcf" "" skip s) = false.
Proof.
  revert skip. induction s as [|a s IH]; intros skip Hc; [done|].
  cbn [has_char] in Hc. apply orb_false_iff in Hc as [Ha Hs].
  cbn [Py.replace_go].
  destruct skip as [|k]; [|by apply IH].
  destruct (String.prefix ".vcf" (String a s)).
  - by apply IH.
  - cbn [has_char]. rewrite Ha. by apply IH.
Qed.

(** X12. No label contains a slash: the directory part of a path never
    reaches the figure, whatever the path looks like. *)
Theorem label_has_no_slash (vcf_file : string) :
  has_char "/" (label_of vcf_file) = false.
Proof.
  unfold label_of, Py.replace.
  apply has_char_replace_go, basename_has_no_slash.
Qed.

(** X13. The label is computed from the base name alone, so a file gets
    the same label in every directory; this is how same-named files from
    different directories come to share one dictionary entry. *)
Theorem label_depends_on_basename (dir1 dir2 name : string) :
  has_char "/" name = false →
  label_of (dir1 +:+ "/" +:+ name) = label_of name
  ∧ label_of (dir1 +:+ "/" +:+ name) = label_of (dir2 +:+ "/" +:+ name).
Proof.
  intros Hname. unfold label_of.
  by rewrite !basename_in_directory, basename_no_slash.
Qed.

Lemma label_depends_on_basename_witness :
  label_of ("run1" +:+ "/" +:+ "calls.vcf") = label_of "calls.vcf"
  ∧ label_of ("run1" +:+ "/" +:+ "calls.vcf") = label_of ("run2" +:+ "/" +:+ "calls.vcf").
Proof. apply (label_depends_on_basename "run1" "run2" "calls.vcf"). reflexivity. Defined.

Lemma label_of_simple_stem_witness :
  label_of ("data" +:+ "/" +:+ "sample" +:+ ".vcf") = "sample"
  ∧ label_of ("data" +:+ "/" +:+ "sample" +:+ ".vcf.gz") = "sample" +:+ ".gz".
Proof. apply (label_of_simple_stem "data" "sample"); reflexivity. Defined.

Lemma substring_whole (s : string) : String.substring 0 (String.length s) s = s.
Proof. induction s as [|a s IH]; [done|]. simpl. by rewrite IH. Qed.

Lemma substring_after (front s : string) :
  String.substring (String.length front) (String.length s) (front +:+ s) = s.
Proof. induction front as [|a front IH]; [apply substring_whole|exact IH]. Qed.

Lemma append_length (s t : string) :
  String.length (s +:+ t) = (String.length s + String.length t)%nat.
Proof. induction s as [|a s IH]; [done|]. simpl. by rewrite IH. Qed.

Lemma substring_split (k : nat) (s : string) :
  (k ≤ String.length s)%nat →
  s = String.substring 0 k s +:+ String.substring k (String.length s - k) s.
Proof.
  revert s. induction k as [|k IH]; intros s Hk.
  - rewrite Nat.sub_0_r, substring_whole. by destruct s.
  - destruct s as [|a s]; [simpl in Hk; lia|].
    simpl in Hk.
    change (String a s
            = String a (String.substring 0 k s
                        +:+ String.substring k (String.length s - k) s)).
    by rewrite <- IH by lia.
Qed.

(** [endswith] holds exactly for the strings that are some prefix followed
    by the suffix. *)
Lemma endswith_iff (s suffix : string) :
  Py.endswith s suffix = true ↔ ∃ front, s = front +:+ suffix.
Proof.
  unfold Py.endswith. split.
  - intros [Hle Heq]%andb_true_iff.
    apply Nat.leb_le in Hle. apply String.eqb_eq in Heq.
    exists (String.substring 0 (String.length s - String.length suffix) s).
    pose proof (substring_split (String.length s - String.length suffix) s) as Hsplit.
    replace (String.length s - (String.length s - String.length suffix))%nat
      with (String.length suffix) in Hsplit by lia.
    rewrite Heq in Hsplit. apply Hsplit. lia.
  - intros [front ->]. rewrite append_length. apply andb_true_iff. split.
    + apply Nat.leb_le. lia.
    + replace (String.length front + String.length suffix - String.length suffix)%nat
        with (String.length front) by lia.
      rewrite substring_after. apply String.eqb_refl.
Qed.

(** X14. A token is taken as an input file exactly when it is some text,
    possibly empty, followed by [.vcf] or by [.vcf.gz]; the test is on the
    spelling alone (case-sensitive, no look at the file system). *)
Theorem recognized_iff_suffix (arg : string) :
  recognized arg = true
  ↔ ∃ stem, arg = stem +:+ ".vcf" ∨ arg = stem +:+ ".vcf.gz".
Proof.
  unfold recognized. rewrite orb_true_iff, !endswith_iff. split.
  - intros [[stem ->]|[stem ->]]; exists stem; [by left|by right].
  - intros [stem [->| ->]]; [left|right]; by exists stem.
Qed.

(** ** The finished dictionary *)




(** ** Diagnostics and same-named pairs *)

(** X16. A run that draws prints exactly one line on the error stream for
    each file whose read failed, in command-line order, each naming its
    file and carrying the exception text; files that read to their end
    leave no line. *)
Theorem diagnostics_per_failed_file (w : World) (vcf_files : list string)
    (output_file : option string) :
  (2 ≤ length vcf_files)%nat →
  filter (λ e, is_stderr e = true)
         (trace (analyze_vcf_concordance w vcf_files output_file))
  = omap (λ f, (λ msg, Stderr (read_error f msg)) <$> read_failure w f) vcf_files.
Proof.
  intros Hlen. rewrite analyze_trace_full by done. cbn [trace fst].
  rewrite !filter_app.
  assert (filter (λ e, is_stderr e = true)
                 (trace (save_or_show
                           (if decide (length vcf_files ≤ 3)%nat
                            then "Venn diagram" else "UpSet plot") output_file)) = [])
    as ->.
  { rewrite save_or_show_spec. cbn [trace fst].
    destruct output_file as [path|]; [destruct (String.eqb path "")|]; done. }
  assert (filter (λ e, is_stderr e = true)
                 (if decide (length vcf_files ≤ 3)%nat
                  then [Figure 10 8; diagram_event w vcf_files; Title figure_title]
                  else [Figure 12 8; diagram_event w vcf_files; Suptitle figure_title])
          = []) as ->.
  { unfold diagram_event. by repeat case_decide. }
  rewrite !app_nil_r. clear Hlen.
  induction vcf_files as [|f fs IH]; [done|].
  cbn [flat_map omap list_omap]. rewrite filter_app, IH. unfold read_events.
  rewrite filter_cons_False by done.
  by destruct (read_failure w f).
Qed.

Lemma diagnostics_per_failed_file_witness :
  filter (λ e, is_stderr e = true)
         (trace (analyze_vcf_concordance demo_world four_files None))
  = omap (λ f, (λ msg, Stderr (read_error f msg)) <$> read_failure demo_world f)
         four_files.
Proof.
  apply (diagnostics_per_failed_file demo_world four_files None). simpl. lia.
Defined.

(** X17. For two input files with the same label the Venn call receives
    the set of the second file in both positions, under the same label
    twice: the records of the first file are read but never shown. *)
Theorem same_label_pair_venn (w : World) (f0 f1 : string) (output_file : option string) :
  label_of f0 = label_of f1 →
  filter (λ e, is_diagram e = true)
         (trace (analyze_vcf_concordance w [f0; f1] output_file))
  = [Venn2 [ids_of w f1; ids_of w f1] [label_of f1; label_of f1]].
Proof.
  intros Hlabel. rewrite analyze_trace_full by (simpl; lia). cbn [trace fst].
  assert (∀ t, existsb is_diagram t = false →
               filter (λ e, is_diagram e = true) t = []) as Hnone.
  { intros t. induction t as [|e t IH]; [done|]. cbn [existsb].
    intros [He Ht]%orb_false_iff. rewrite filter_cons_False by by rewrite He.
    by apply IH. }
  rewrite filter_app, (Hnone (flat_map _ _)) by (apply read_events_no; by_event).
  rewrite filter_app, (Hnone (trace _)) by (apply save_or_show_no; done).
  rewrite app_nil_r. cbn [app length]. rewrite decide_True by lia.
  unfold diagram_event. cbn [length]. rewrite decide_True by done.
  cbn [fmap list_fmap]. rewrite Hlabel.
  change (zip [f0; f1] [label_of f1; label_of f1])
    with [(f0, label_of f1); (f1, label_of f1)].
  unfold built. cbn [foldl fst snd dict_set]. rewrite decide_True by done.
  cbn [dict_get]. rewrite decide_True by done. reflexivity.
Qed.

Lemma same_label_pair_venn_witness :
  filter (λ e, is_diagram e = true)
         (trace (analyze_vcf_concordance demo_world ["a/x.vcf"; "b/x.vcf"] None))
  = [Venn2 [ids_of demo_world "b/x.vcf"; ids_of demo_world "b/x.vcf"]
           [label_of "b/x.vcf"; label_of "b/x.vcf"]].
Proof.
  apply (same_label_pair_venn demo_world "a/x.vcf" "b/x.vcf" None). reflexivity.
Defined.
